(** * The extent-hook indirection layer of jemalloc ([ehooks.h])

    A shallow embedding of [include/jemalloc/internal/ehooks.h]: the hook
    handle [ehooks_t], the raw reentrancy guard around user hooks and the
    nine dispatch wrappers, followed by the properties of the layer.

    The C code is sequential, stateful and may fault; it is embedded in a
    state monad with a crash outcome over an explicit [world]: the memory
    holding the handles and the hook tables, the thread contexts, the
    state of the external collaborators and a trace of the calls that
    leave the header.  Hooks and default fast paths are foreign code: they
    act on the external state only.  What the header takes from other
    files ([tsd.h], [atomic.h], [ehooks.c], the public header) is either a
    parameter of the development or modelled from the specification, and
    marked so. *)

From Stdlib Require Import ZArith List Bool.
From stdpp Require Import gmap.

Local Open Scope Z_scope.

(** ** Data model *)

(** Threads are numbered ([nat]).  A thread owns at most one thread context
    ([tsd_t]), so a [tsd_t *] is identified with the thread it belongs to. *)

(** [tsdn_t *]: a nullable pointer to a thread context. *)
Definition tsdn_t : Set := option nat.

(** The nine extent operations, used to label calls in the trace. *)
Inductive hook_kind : Set :=
| Alloc | Dalloc | Destroy | Commit | Decommit
| PurgeLazy | PurgeForced | Split | Merge.

(** Calls that leave the dispatcher, in the order they happen. *)
Inductive event : Set :=
| EvPre (t : nat)                    (* tsd_pre_reentrancy_raw on t's context *)
| EvPost (t : nat)                   (* tsd_post_reentrancy_raw on t's context *)
| EvDefault (k : hook_kind)          (* direct call of ehooks_default_<k>_impl *)
| EvHook (k : hook_kind) (table : Z). (* indirect call table->k(table, ...) *)

(** Memory orders of [atomic.h]. *)
Inductive atomic_memory_order_t : Set :=
| ATOMIC_RELAXED | ATOMIC_ACQUIRE | ATOMIC_RELEASE | ATOMIC_ACQ_REL
| ATOMIC_SEQ_CST.

(** Hook signatures, as the call sites of [ehooks.h] use them.  A hook is
    foreign code: it acts on the external state [E] (pages, user data).
    The first argument is always the table's own address; [bool *zero] and
    [bool *commit] of [alloc] are passed in and returned. *)
Definition extent_alloc_t (E : Type) : Type :=
  Z -> Z -> Z -> Z -> bool -> bool -> Z -> E -> (Z * bool * bool) * E.
Definition extent_dalloc_t (E : Type) : Type :=
  Z -> Z -> Z -> bool -> Z -> E -> bool * E.
Definition extent_destroy_t (E : Type) : Type :=
  Z -> Z -> Z -> bool -> Z -> E -> bool * E.
Definition extent_commit_t (E : Type) : Type :=
  Z -> Z -> Z -> Z -> Z -> Z -> E -> bool * E.
Definition extent_decommit_t (E : Type) : Type :=
  Z -> Z -> Z -> Z -> Z -> Z -> E -> bool * E.
Definition extent_purge_t (E : Type) : Type :=
  Z -> Z -> Z -> Z -> Z -> Z -> E -> bool * E.
Definition extent_split_t (E : Type) : Type :=
  Z -> Z -> Z -> Z -> Z -> bool -> Z -> E -> bool * E.
Definition extent_merge_t (E : Type) : Type :=
  Z -> Z -> Z -> Z -> Z -> bool -> Z -> E -> bool * E.

(** Modelled from the spec: [extent_hooks_t] is declared in the public
    header, which is not part of the sources at hand.  It is the capability
    table of the spec: one slot per operation, each either present (a
    callable) or absent ([NULL], here [None]).  The field names are those
    [ehooks.h] dereferences. *)
Record extent_hooks_t (E : Type) : Type := {
  alloc : option (extent_alloc_t E);
  dalloc : option (extent_dalloc_t E);
  destroy : option (extent_destroy_t E);
  commit : option (extent_commit_t E);
  decommit : option (extent_decommit_t E);
  purge_lazy : option (extent_purge_t E);
  purge_forced : option (extent_purge_t E);
  split : option (extent_split_t E);
  merge : option (extent_merge_t E)
}.
Arguments alloc {E} _.
Arguments dalloc {E} _.
Arguments destroy {E} _.
Arguments commit {E} _.
Arguments decommit {E} _.
Arguments purge_lazy {E} _.
Arguments purge_forced {E} _.
Arguments split {E} _.
Arguments merge {E} _.

(** [struct ehooks_s]: one atomic word, logically an [extent_hooks_t *]. *)
Record ehooks_t : Set := { ptr : Z }.

(** Modelled from the spec: [tsd_t] lives in [tsd.h], which is not part of
    the sources at hand.  Of a thread context only the reentrancy counter
    matters here. *)
Record tsd_t : Set := { reentrancy_level : Z }.

(** The state the code runs in. *)
Record world (E : Type) : Type := {
  ehooks_mem : gmap Z ehooks_t;          (* the ehooks_t objects, by address *)
  hooks_mem : gmap Z (extent_hooks_t E); (* the extent_hooks_t objects, by address *)
  tsd_mem : gmap nat tsd_t;              (* the established thread contexts *)
  cur_thread : nat;                      (* the thread executing the code *)
  ext : E;                               (* state of the external collaborators *)
  trace : list event                     (* ghost: calls made so far *)
}.
Arguments ehooks_mem {E} _.
Arguments hooks_mem {E} _.
Arguments tsd_mem {E} _.
Arguments cur_thread {E} _.
Arguments ext {E} _.
Arguments trace {E} _.

(** What [ehooks.h] declares and [ehooks.c], [pages.h] define: the build's
    purge capabilities, the address of the default table and the default
    fast paths.  The two purge fast paths exist only under their flag; the
    wrappers call them only there. *)
Class ehooks_extern (E : Type) : Type := {
  PAGES_CAN_PURGE_LAZY : bool;
  PAGES_CAN_PURGE_FORCED : bool;
  ehooks_default_extent_hooks : Z;
  ehooks_default_alloc_impl :
    tsdn_t -> Z -> Z -> Z -> bool -> bool -> Z -> E -> (Z * bool * bool) * E;
  ehooks_default_dalloc_impl : Z -> Z -> E -> bool * E;
  ehooks_default_destroy_impl : Z -> Z -> E -> unit * E;
  ehooks_default_commit_impl : Z -> Z -> Z -> E -> bool * E;
  ehooks_default_decommit_impl : Z -> Z -> Z -> E -> bool * E;
  ehooks_default_purge_lazy_impl : Z -> Z -> Z -> E -> bool * E;
  ehooks_default_purge_forced_impl : Z -> Z -> Z -> E -> bool * E;
  ehooks_default_split_impl : E -> bool * E;
  ehooks_default_merge_impl : Z -> Z -> E -> bool * E
}.

(** ** The monad: state, with a crash for undefined behaviour *)

Inductive outcome (E A : Type) : Type :=
| Ok (a : A) (w : world E)
| Crash (w : world E).
Arguments Ok {E A} a w.
Arguments Crash {E A} w.

Definition M (E A : Type) : Type := world E -> outcome E A.

Definition ret {E A : Type} (a : A) : M E A := fun w => Ok a w.

Definition bind {E A B : Type} (m : M E A) (k : A -> M E B) : M E B :=
  fun w => match m w with
           | Ok a w' => k a w'
           | Crash w' => Crash w'
           end.

Declare Scope ehooks_scope.
Delimit Scope ehooks_scope with ehooks.
Notation "x <- m ; k" := (bind m (fun x => k))
  (at level 100, m at next level, right associativity) : ehooks_scope.
Notation "m ;; k" := (bind m (fun _ => k))
  (at level 100, right associativity) : ehooks_scope.
Local Open Scope ehooks_scope.

(** The state an outcome ends in. *)
Definition final {E A : Type} (o : outcome E A) : world E :=
  match o with Ok _ w => w | Crash w => w end.

Section Ehooks.

Context {E : Type} `{X : !ehooks_extern E}.

(** *** State updates *)

Definition with_ehooks_mem (m : gmap Z ehooks_t) (w : world E) : world E :=
  {| ehooks_mem := m; hooks_mem := hooks_mem w; tsd_mem := tsd_mem w;
     cur_thread := cur_thread w; ext := ext w; trace := trace w |}.

Definition with_tsd_mem (m : gmap nat tsd_t) (w : world E) : world E :=
  {| ehooks_mem := ehooks_mem w; hooks_mem := hooks_mem w; tsd_mem := m;
     cur_thread := cur_thread w; ext := ext w; trace := trace w |}.

Definition with_cur_thread (t : nat) (w : world E) : world E :=
  {| ehooks_mem := ehooks_mem w; hooks_mem := hooks_mem w;
     tsd_mem := tsd_mem w; cur_thread := t; ext := ext w; trace := trace w |}.

(** An external call: it transforms the external state and is recorded. *)
Definition called (ev : event) (e : E) (w : world E) : world E :=
  {| ehooks_mem := ehooks_mem w; hooks_mem := hooks_mem w;
     tsd_mem := tsd_mem w; cur_thread := cur_thread w; ext := e;
     trace := trace w ++ [ev] |}.

Definition logged (ev : event) (w : world E) : world E :=
  called ev (ext w) w.

(** *** Primitives the header builds on *)

(** Direct call of a default fast path. *)
Definition direct {A : Type} (k : hook_kind) (impl : E -> A * E) : M E A :=
  fun w => let r := impl (ext w) in Ok (fst r) (called (EvDefault k) (snd r) w).

(** [extent_hooks->slot]: read one slot of the table at [extent_hooks].
    Reading through a pointer that holds no table is undefined. *)
Definition field {F : Type} (extent_hooks : Z)
    (slot : extent_hooks_t E -> option F) : M E (option F) :=
  fun w => match hooks_mem w !! extent_hooks with
           | Some t => Ok (slot t) w
           | None => Crash w
           end.

(** [extent_hooks->slot(...)]: indirect call through a slot.  Calling a
    [NULL] function pointer is undefined. *)
Definition invoke {F A : Type} (k : hook_kind) (extent_hooks : Z)
    (slot : extent_hooks_t E -> option F) (args : F -> E -> A * E) : M E A :=
  f <- field extent_hooks slot;
  match f with
  | Some g => fun w =>
      let r := args g (ext w) in
      Ok (fst r) (called (EvHook k extent_hooks) (snd r) w)
  | None => fun w => Crash w
  end.

Definition is_NULL {F : Type} (f : option F) : bool :=
  match f with None => true | Some _ => false end.

(** Sequential reading of [atomic_load_p] and [atomic_store_p] on the word
    of the handle at address [a]; the memory order has no sequential
    effect. *)
Definition atomic_load_p (a : Z) (mo : atomic_memory_order_t) : M E Z :=
  fun w => match ehooks_mem w !! a with
           | Some h => Ok (ptr h) w
           | None => Crash w
           end.

Definition atomic_store_p (a : Z) (v : Z) (mo : atomic_memory_order_t)
    : M E unit :=
  fun w => match ehooks_mem w !! a with
           | Some _ => Ok tt (with_ehooks_mem (<[a := {| ptr := v |}]> (ehooks_mem w)) w)
           | None => Crash w
           end.

Definition tsdn_null (tsdn : tsdn_t) : bool :=
  match tsdn with None => true | Some _ => false end.

(** [tsdn_tsd] is only called on a non-null [tsdn]. *)
Definition tsdn_tsd (tsdn : tsdn_t) : M E nat :=
  match tsdn with
  | Some t => ret t
  | None => fun w => Crash w
  end.

(** Modelled from the spec: [tsd_fetch] ([tsd.h]) is "fetch-or-establish
    current thread context": it returns the calling thread's context and
    establishes one, with a zero counter, when the thread has none. *)
Definition tsd_fetch : M E nat :=
  fun w => match tsd_mem w !! cur_thread w with
           | Some _ => Ok (cur_thread w) w
           | None =>
               Ok (cur_thread w)
                  (with_tsd_mem (<[cur_thread w := {| reentrancy_level := 0 |}]> (tsd_mem w)) w)
           end.

(** Modelled from the spec: [tsd_pre_reentrancy_raw] ([tsd.h]) increments
    the reentrancy counter of the context. *)
Definition tsd_pre_reentrancy_raw (tsd : nat) : M E unit :=
  fun w => match tsd_mem w !! tsd with
           | Some d =>
               Ok tt (logged (EvPre tsd)
                        (with_tsd_mem
                           (<[tsd := {| reentrancy_level := reentrancy_level d + 1 |}]> (tsd_mem w)) w))
           | None => Crash w
           end.

(** Modelled from the spec: [tsd_post_reentrancy_raw] ([tsd.h]) decrements
    the reentrancy counter of the context. *)
Definition tsd_post_reentrancy_raw (tsd : nat) : M E unit :=
  fun w => match tsd_mem w !! tsd with
           | Some d =>
               Ok tt (logged (EvPost tsd)
                        (with_tsd_mem
                           (<[tsd := {| reentrancy_level := reentrancy_level d - 1 |}]> (tsd_mem w)) w))
           | None => Crash w
           end.

(** ** The header *)

Definition ehooks_pre_reentrancy (tsdn : tsdn_t) : M E unit :=
  tsd <- (if tsdn_null tsdn then tsd_fetch else tsdn_tsd tsdn);
  tsd_pre_reentrancy_raw tsd.

Definition ehooks_post_reentrancy (tsdn : tsdn_t) : M E unit :=
  tsd <- (if tsdn_null tsdn then tsd_fetch else tsdn_tsd tsdn);
  tsd_post_reentrancy_raw tsd.

(** Modelled from the spec: [ehooks_init] is only declared in the header;
    it "stores [table_ref] into the handle's atomic reference". *)
Definition ehooks_init (ehooks : Z) (extent_hooks : Z) : M E unit :=
  fun w => match ehooks_mem w !! ehooks with
           | Some _ =>
               Ok tt (with_ehooks_mem
                        (<[ehooks := {| ptr := extent_hooks |}]> (ehooks_mem w)) w)
           | None => Crash w
           end.

Definition ehooks_set_extent_hooks_ptr (ehooks : Z) (extent_hooks : Z)
    : M E unit :=
  atomic_store_p ehooks extent_hooks ATOMIC_RELEASE.

Definition ehooks_get_extent_hooks_ptr (ehooks : Z) : M E Z :=
  atomic_load_p ehooks ATOMIC_ACQUIRE.

Definition ehooks_are_default (ehooks : Z) : M E bool :=
  p <- ehooks_get_extent_hooks_ptr ehooks;
  ret (p =? ehooks_default_extent_hooks).

Definition ehooks_split_will_fail (ehooks : Z) : M E bool :=
  p <- ehooks_get_extent_hooks_ptr ehooks;
  f <- field p split;
  ret (is_NULL f).

Definition ehooks_merge_will_fail (ehooks : Z) : M E bool :=
  p <- ehooks_get_extent_hooks_ptr ehooks;
  f <- field p merge;
  ret (is_NULL f).

Definition ehooks_alloc (tsdn : tsdn_t) (ehooks : Z) (new_addr size alignment : Z)
    (zero commit : bool) (arena_ind : Z) : M E (Z * bool * bool) :=
  extent_hooks <- ehooks_get_extent_hooks_ptr ehooks;
  if extent_hooks =? ehooks_default_extent_hooks then
    direct Alloc (ehooks_default_alloc_impl tsdn new_addr size alignment
                    zero commit arena_ind)
  else
    ehooks_pre_reentrancy tsdn;;
    r <- invoke Alloc extent_hooks alloc
           (fun f => f extent_hooks new_addr size alignment zero commit arena_ind);
    ehooks_post_reentrancy tsdn;;
    ret r.

Definition ehooks_dalloc (tsdn : tsdn_t) (ehooks : Z) (addr size : Z)
    (committed : bool) (arena_ind : Z) : M E bool :=
  extent_hooks <- ehooks_get_extent_hooks_ptr ehooks;
  if extent_hooks =? ehooks_default_extent_hooks then
    direct Dalloc (ehooks_default_dalloc_impl addr size)
  else
    f <- field extent_hooks dalloc;
    if is_NULL f then ret true
    else
      ehooks_pre_reentrancy tsdn;;
      err <- invoke Dalloc extent_hooks dalloc
               (fun f => f extent_hooks addr size committed arena_ind);
      ehooks_post_reentrancy tsdn;;
      ret err.

Definition ehooks_destroy (tsdn : tsdn_t) (ehooks : Z) (addr size : Z)
    (committed : bool) (arena_ind : Z) : M E unit :=
  extent_hooks <- ehooks_get_extent_hooks_ptr ehooks;
  if extent_hooks =? ehooks_default_extent_hooks then
    direct Destroy (ehooks_default_destroy_impl addr size)
  else
    f <- field extent_hooks destroy;
    if is_NULL f then ret tt
    else
      ehooks_pre_reentrancy tsdn;;
      invoke Destroy extent_hooks destroy
        (fun f => f extent_hooks addr size committed arena_ind);;
      ehooks_post_reentrancy tsdn.

Definition ehooks_commit (tsdn : tsdn_t) (ehooks : Z)
    (addr size offset length arena_ind : Z) : M E bool :=
  extent_hooks <- ehooks_get_extent_hooks_ptr ehooks;
  if extent_hooks =? ehooks_default_extent_hooks then
    direct Commit (ehooks_default_commit_impl addr offset length)
  else
    f <- field extent_hooks commit;
    if is_NULL f then ret true
    else
      ehooks_pre_reentrancy tsdn;;
      err <- invoke Commit extent_hooks commit
               (fun f => f extent_hooks addr size offset length arena_ind);
      ehooks_post_reentrancy tsdn;;
      ret err.

Definition ehooks_decommit (tsdn : tsdn_t) (ehooks : Z)
    (addr size offset length arena_ind : Z) : M E bool :=
  extent_hooks <- ehooks_get_extent_hooks_ptr ehooks;
  if extent_hooks =? ehooks_default_extent_hooks then
    direct Decommit (ehooks_default_decommit_impl addr offset length)
  else
    f <- field extent_hooks decommit;
    if is_NULL f then ret true
    else
      ehooks_pre_reentrancy tsdn;;
      err <- invoke Decommit extent_hooks decommit
               (fun f => f extent_hooks addr size offset length arena_ind);
      ehooks_post_reentrancy tsdn;;
      ret err.

(** The test against the default table is compiled only under
    [#ifdef PAGES_CAN_PURGE_LAZY]; without the flag the code starts at the
    test of the slot. *)
Definition ehooks_purge_lazy (tsdn : tsdn_t) (ehooks : Z)
    (addr size offset length arena_ind : Z) : M E bool :=
  extent_hooks <- ehooks_get_extent_hooks_ptr ehooks;
  if PAGES_CAN_PURGE_LAZY && (extent_hooks =? ehooks_default_extent_hooks) then
    direct PurgeLazy (ehooks_default_purge_lazy_impl addr offset length)
  else
    f <- field extent_hooks purge_lazy;
    if is_NULL f then ret true
    else
      ehooks_pre_reentrancy tsdn;;
      err <- invoke PurgeLazy extent_hooks purge_lazy
               (fun f => f extent_hooks addr size offset length arena_ind);
      ehooks_post_reentrancy tsdn;;
      ret err.

(** Likewise under [#ifdef PAGES_CAN_PURGE_FORCED]. *)
Definition ehooks_purge_forced (tsdn : tsdn_t) (ehooks : Z)
    (addr size offset length arena_ind : Z) : M E bool :=
  extent_hooks <- ehooks_get_extent_hooks_ptr ehooks;
  if PAGES_CAN_PURGE_FORCED && (extent_hooks =? ehooks_default_extent_hooks) then
    direct PurgeForced (ehooks_default_purge_forced_impl addr offset length)
  else
    f <- field extent_hooks purge_forced;
    if is_NULL f then ret true
    else
      ehooks_pre_reentrancy tsdn;;
      err <- invoke PurgeForced extent_hooks purge_forced
               (fun f => f extent_hooks addr size offset length arena_ind);
      ehooks_post_reentrancy tsdn;;
      ret err.

(** [ehooks_split] tests the default table through [ehooks_are_default],
    which loads the reference a second time. *)
Definition ehooks_split (tsdn : tsdn_t) (ehooks : Z)
    (addr size size_a size_b : Z) (committed : bool) (arena_ind : Z)
    : M E bool :=
  extent_hooks <- ehooks_get_extent_hooks_ptr ehooks;
  d <- ehooks_are_default ehooks;
  if (d : bool) then
    direct Split ehooks_default_split_impl
  else
    f <- field extent_hooks split;
    if is_NULL f then ret true
    else
      ehooks_pre_reentrancy tsdn;;
      err <- invoke Split extent_hooks split
               (fun f => f extent_hooks addr size size_a size_b committed arena_ind);
      ehooks_post_reentrancy tsdn;;
      ret err.

Definition ehooks_merge (tsdn : tsdn_t) (ehooks : Z)
    (addr_a size_a addr_b size_b : Z) (committed : bool) (arena_ind : Z)
    : M E bool :=
  extent_hooks <- ehooks_get_extent_hooks_ptr ehooks;
  if extent_hooks =? ehooks_default_extent_hooks then
    direct Merge (ehooks_default_merge_impl addr_a addr_b)
  else
    f <- field extent_hooks merge;
    if is_NULL f then ret true
    else
      ehooks_pre_reentrancy tsdn;;
      err <- invoke Merge extent_hooks merge
               (fun f => f extent_hooks addr_a size_a addr_b size_b committed arena_ind);
      ehooks_post_reentrancy tsdn;;
      ret err.

(** ** A uniform view of the nine wrappers *)

(** One call of a wrapper, with its operation-specific arguments. *)
Inductive request : Set :=
| ReqAlloc (new_addr size alignment : Z) (zero commit : bool) (arena_ind : Z)
| ReqDalloc (addr size : Z) (committed : bool) (arena_ind : Z)
| ReqDestroy (addr size : Z) (committed : bool) (arena_ind : Z)
| ReqCommit (addr size offset length arena_ind : Z)
| ReqDecommit (addr size offset length arena_ind : Z)
| ReqPurgeLazy (addr size offset length arena_ind : Z)
| ReqPurgeForced (addr size offset length arena_ind : Z)
| ReqSplit (addr size size_a size_b : Z) (committed : bool) (arena_ind : Z)
| ReqMerge (addr_a size_a addr_b size_b : Z) (committed : bool) (arena_ind : Z).

(** What a wrapper hands back: [alloc] a pointer with the two flags,
    [destroy] nothing, the other seven a [bool]. *)
Inductive reply : Set :=
| RepAlloc (r : Z * bool * bool)
| RepBool (err : bool)
| RepVoid.

Definition kind_of (r : request) : hook_kind :=
  match r with
  | ReqAlloc _ _ _ _ _ _ => Alloc
  | ReqDalloc _ _ _ _ => Dalloc
  | ReqDestroy _ _ _ _ => Destroy
  | ReqCommit _ _ _ _ _ => Commit
  | ReqDecommit _ _ _ _ _ => Decommit
  | ReqPurgeLazy _ _ _ _ _ => PurgeLazy
  | ReqPurgeForced _ _ _ _ _ => PurgeForced
  | ReqSplit _ _ _ _ _ _ => Split
  | ReqMerge _ _ _ _ _ _ => Merge
  end.

(** The seven operations with a boolean result. *)
Definition bool_result (k : hook_kind) : bool :=
  match k with Alloc | Destroy => false | _ => true end.

Definition dispatch (tsdn : tsdn_t) (ehooks : Z) (r : request) : M E reply :=
  match r with
  | ReqAlloc new_addr size alignment zero commit arena_ind =>
      x <- ehooks_alloc tsdn ehooks new_addr size alignment zero commit arena_ind;
      ret (RepAlloc x)
  | ReqDalloc addr size committed arena_ind =>
      err <- ehooks_dalloc tsdn ehooks addr size committed arena_ind;
      ret (RepBool err)
  | ReqDestroy addr size committed arena_ind =>
      ehooks_destroy tsdn ehooks addr size committed arena_ind;;
      ret RepVoid
  | ReqCommit addr size offset length arena_ind =>
      err <- ehooks_commit tsdn ehooks addr size offset length arena_ind;
      ret (RepBool err)
  | ReqDecommit addr size offset length arena_ind =>
      err <- ehooks_decommit tsdn ehooks addr size offset length arena_ind;
      ret (RepBool err)
  | ReqPurgeLazy addr size offset length arena_ind =>
      err <- ehooks_purge_lazy tsdn ehooks addr size offset length arena_ind;
      ret (RepBool err)
  | ReqPurgeForced addr size offset length arena_ind =>
      err <- ehooks_purge_forced tsdn ehooks addr size offset length arena_ind;
      ret (RepBool err)
  | ReqSplit addr size size_a size_b committed arena_ind =>
      err <- ehooks_split tsdn ehooks addr size size_a size_b committed arena_ind;
      ret (RepBool err)
  | ReqMerge addr_a size_a addr_b size_b committed arena_ind =>
      err <- ehooks_merge tsdn ehooks addr_a size_a addr_b size_b committed arena_ind;
      ret (RepBool err)
  end.

(** The default fast path of a request: the [ehooks_default_*_impl] that
    belongs to it, on the arguments its wrapper passes on. *)
Definition fast_path (tsdn : tsdn_t) (r : request) : E -> reply * E :=
  fun e =>
  match r with
  | ReqAlloc new_addr size alignment zero commit arena_ind =>
      let x := ehooks_default_alloc_impl tsdn new_addr size alignment zero
                 commit arena_ind e in
      (RepAlloc (fst x), snd x)
  | ReqDalloc addr size _ _ =>
      let x := ehooks_default_dalloc_impl addr size e in (RepBool (fst x), snd x)
  | ReqDestroy addr size _ _ =>
      let x := ehooks_default_destroy_impl addr size e in (RepVoid, snd x)
  | ReqCommit addr _ offset length _ =>
      let x := ehooks_default_commit_impl addr offset length e in
      (RepBool (fst x), snd x)
  | ReqDecommit addr _ offset length _ =>
      let x := ehooks_default_decommit_impl addr offset length e in
      (RepBool (fst x), snd x)
  | ReqPurgeLazy addr _ offset length _ =>
      let x := ehooks_default_purge_lazy_impl addr offset length e in
      (RepBool (fst x), snd x)
  | ReqPurgeForced addr _ offset length _ =>
      let x := ehooks_default_purge_forced_impl addr offset length e in
      (RepBool (fst x), snd x)
  | ReqSplit _ _ _ _ _ _ =>
      let x := ehooks_default_split_impl e in (RepBool (fst x), snd x)
  | ReqMerge addr_a _ addr_b _ _ _ =>
      let x := ehooks_default_merge_impl addr_a addr_b e in
      (RepBool (fst x), snd x)
  end.

(** Whether the build compiles a test against the default table into the
    wrapper of this operation. *)
Definition has_fast_path (k : hook_kind) : bool :=
  match k with
  | PurgeLazy => PAGES_CAN_PURGE_LAZY
  | PurgeForced => PAGES_CAN_PURGE_FORCED
  | _ => true
  end.

(** The hook a request addresses in table [t] at address [p], applied to
    the uniform arguments; [None] when that slot is absent. *)
Definition slot_call (p : Z) (t : extent_hooks_t E) (r : request)
    : option (E -> reply * E) :=
  match r with
  | ReqAlloc new_addr size alignment zero commit arena_ind =>
      (fun f e => let x := f p new_addr size alignment zero commit arena_ind e in
                  (RepAlloc (fst x), snd x)) <$> alloc t
  | ReqDalloc addr size committed arena_ind =>
      (fun f e => let x := f p addr size committed arena_ind e in
                  (RepBool (fst x), snd x)) <$> dalloc t
  | ReqDestroy addr size committed arena_ind =>
      (fun f e => let x := f p addr size committed arena_ind e in
                  (RepVoid, snd x)) <$> destroy t
  | ReqCommit addr size offset length arena_ind =>
      (fun f e => let x := f p addr size offset length arena_ind e in
                  (RepBool (fst x), snd x)) <$> commit t
  | ReqDecommit addr size offset length arena_ind =>
      (fun f e => let x := f p addr size offset length arena_ind e in
                  (RepBool (fst x), snd x)) <$> decommit t
  | ReqPurgeLazy addr size offset length arena_ind =>
      (fun f e => let x := f p addr size offset length arena_ind e in
                  (RepBool (fst x), snd x)) <$> purge_lazy t
  | ReqPurgeForced addr size offset length arena_ind =>
      (fun f e => let x := f p addr size offset length arena_ind e in
                  (RepBool (fst x), snd x)) <$> purge_forced t
  | ReqSplit addr size size_a size_b committed arena_ind =>
      (fun f e => let x := f p addr size size_a size_b committed arena_ind e in
                  (RepBool (fst x), snd x)) <$> split t
  | ReqMerge addr_a size_a addr_b size_b committed arena_ind =>
      (fun f e => let x := f p addr_a size_a addr_b size_b committed arena_ind e in
                  (RepBool (fst x), snd x)) <$> merge t
  end.

(** The canned result of a wrapper whose slot is absent. *)
Definition fallback (k : hook_kind) : reply :=
  match k with Destroy => RepVoid | _ => RepBool true end.

(** *** The reentrancy counter and the guard *)

(** The reentrancy counter of thread [t]; a thread without a context has
    never entered the guard. *)
Definition level_of (w : world E) (t : nat) : Z :=
  match tsd_mem w !! t with
  | Some d => reentrancy_level d
  | None => 0
  end.

(** The thread whose context the guard works on. *)
Definition guard_thread (w : world E) (tsdn : tsdn_t) : nat :=
  match tsdn with Some t => t | None => cur_thread w end.

(** A non-null [tsdn] must point to an established context. *)
Definition tsdn_ready (w : world E) (tsdn : tsdn_t) : bool :=
  match tsdn with
  | Some t => bool_decide (is_Some (tsd_mem w !! t))
  | None => true
  end.

(** [w'] is [w] after one guarded call of hook [k] of the table at [p]
    that left the external state [e']: guard entered, hook called, guard
    left, in this order and nothing else. *)
Definition guarded_call (w : world E) (tsdn : tsdn_t) (k : hook_kind) (p : Z)
    (e' : E) (w' : world E) : Prop :=
  ehooks_mem w' = ehooks_mem w /\ hooks_mem w' = hooks_mem w /\
  cur_thread w' = cur_thread w /\ ext w' = e' /\
  trace w' = trace w ++ [EvPre (guard_thread w tsdn); EvHook k p;
                         EvPost (guard_thread w tsdn)] /\
  (forall t, level_of w' t = level_of w t) /\
  (forall t, is_Some (tsd_mem w !! t) -> is_Some (tsd_mem w' !! t)).

(** The guard discipline of a trace: entries and exits of the guard are
    matched like brackets, hooks are called only inside the guard and
    default fast paths only outside it.  [open] lists the contexts whose
    guard is entered and not yet left, innermost first. *)
Fixpoint guard_discipline (open : list nat) (tr : list event) : bool :=
  match tr with
  | [] => match open with [] => true | _ :: _ => false end
  | EvPre t :: tr' => guard_discipline (t :: open) tr'
  | EvPost t :: tr' =>
      match open with
      | t' :: open' => Nat.eqb t t' && guard_discipline open' tr'
      | [] => false
      end
  | EvHook _ _ :: tr' =>
      match open with
      | _ :: _ => guard_discipline open tr'
      | [] => false
      end
  | EvDefault _ :: tr' =>
      match open with
      | [] => guard_discipline open tr'
      | _ :: _ => false
      end
  end.

(** *** Sequences of dispatch calls, by several threads *)

(** One dispatch call: the thread that makes it and what it passes. *)
Record invocation : Set := {
  inv_thread : nat;
  inv_tsdn : tsdn_t;
  inv_ehooks : Z;
  inv_request : request
}.

Definition perform (i : invocation) : M E reply :=
  fun w => dispatch (inv_tsdn i) (inv_ehooks i) (inv_request i)
             (with_cur_thread (inv_thread i) w).

Fixpoint perform_all (l : list invocation) : M E (list reply) :=
  match l with
  | [] => ret []
  | i :: l' =>
      r <- perform i;
      rs <- perform_all l';
      ret (r :: rs)
  end.

(** The preconditions of a dispatch call in C: the handle and a non-null
    [tsdn] point to live objects, the handle holds the address of a table
    wherever the wrapper reads one, and [alloc] is never called on a
    custom table without an [alloc] hook. *)
Definition ready (w : world E) (i : invocation) : bool :=
  tsdn_ready w (inv_tsdn i) &&
  match ehooks_mem w !! inv_ehooks i with
  | None => false
  | Some h =>
      (has_fast_path (kind_of (inv_request i))
       && (ptr h =? ehooks_default_extent_hooks))
      || match hooks_mem w !! ptr h with
         | None => false
         | Some t =>
             match kind_of (inv_request i) with
             | Alloc => negb (is_NULL (alloc t))
             | _ => true
             end
         end
  end.

(** [w'] is reached from [w] by calls that respect the guard: handles
    and tables are as they were, no context is lost, every reentrancy
    counter is back at its value and the calls made in between obey the
    guard discipline. *)
Definition guard_balanced (w w' : world E) : Prop :=
  ehooks_mem w' = ehooks_mem w /\ hooks_mem w' = hooks_mem w /\
  (forall t, is_Some (tsd_mem w !! t) -> is_Some (tsd_mem w' !! t)) /\
  (forall t, level_of w' t = level_of w t) /\
  exists tr, trace w' = trace w ++ tr /\ guard_discipline [] tr = true.

(** A computation that leaves every handle as it found it, whether it
    returns or faults. *)
Definition keeps_handles {A : Type} (m : M E A) : Prop :=
  forall w, ehooks_mem (final (m w)) = ehooks_mem w.

(** A computation every outcome of which, faulting ones included, stands
    in relation [R] to the state it started in. *)
Definition stable (R : world E -> world E -> Prop) {A : Type} (m : M E A)
    : Prop :=
  forall w, R w (final (m w)).

(** No hook table was written, added or removed. *)
Definition same_tables (w w' : world E) : Prop :=
  hooks_mem w' = hooks_mem w.

(** The running thread is the same and no thread context other than the
    one the guard works on was touched. *)
Definition confined (tsdn : tsdn_t) (w w' : world E) : Prop :=
  cur_thread w' = cur_thread w /\
  forall t, t <> guard_thread w tsdn -> tsd_mem w' !! t = tsd_mem w !! t.

End Ehooks.

(** ** A concrete build, for examples *)

Module Demo.

(** The external state counts the calls that reached the backend. *)
Definition demo_extern (lazy forced : bool) : ehooks_extern nat := {|
  PAGES_CAN_PURGE_LAZY := lazy;
  PAGES_CAN_PURGE_FORCED := forced;
  ehooks_default_extent_hooks := 100;
  ehooks_default_alloc_impl := fun _ new_addr _ _ zero commit _ e =>
    ((if new_addr =? 0 then 4096 else new_addr, zero, commit), S e);
  ehooks_default_dalloc_impl := fun _ _ e => (false, S e);
  ehooks_default_destroy_impl := fun _ _ e => (tt, S e);
  ehooks_default_commit_impl := fun _ _ _ e => (false, S e);
  ehooks_default_decommit_impl := fun _ _ _ e => (false, S e);
  ehooks_default_purge_lazy_impl := fun _ _ _ e => (false, S e);
  ehooks_default_purge_forced_impl := fun _ _ _ e => (false, S e);
  ehooks_default_split_impl := fun e => (true, e);
  ehooks_default_merge_impl := fun _ _ e => (false, S e)
|}.

(** The default table of a build: every slot populated, the purge slots
    only under their flag. *)
Definition default_table (lazy forced : bool) : extent_hooks_t nat := {|
  alloc := Some (fun _ new_addr _ _ zero commit _ e =>
                   ((if new_addr =? 0 then 4096 else new_addr, zero, commit), S e));
  dalloc := Some (fun _ _ _ _ _ e => (false, S e));
  destroy := Some (fun _ _ _ _ _ e => (false, S e));
  commit := Some (fun _ _ _ _ _ _ e => (false, S e));
  decommit := Some (fun _ _ _ _ _ _ e => (false, S e));
  purge_lazy :=
    if lazy then Some (fun _ _ _ _ _ _ e => (false, S e)) else None;
  purge_forced :=
    if forced then Some (fun _ _ _ _ _ _ e => (false, S e)) else None;
  split := Some (fun _ _ _ _ _ _ _ e => (true, e));
  merge := Some (fun _ _ _ _ _ _ _ e => (false, S e))
|}.

(** A custom table with only [alloc] populated. *)
Definition only_alloc : extent_hooks_t nat := {|
  alloc := Some (fun _ _ _ _ zero commit _ e => ((8192, zero, commit), S e));
  dalloc := None; destroy := None; commit := None; decommit := None;
  purge_lazy := None; purge_forced := None; split := None; merge := None
|}.

(** A custom table with every slot populated but [alloc]; its [split]
    hook refuses, its [destroy] hook reports an error, the other hooks
    succeed. *)
Definition no_alloc : extent_hooks_t nat := {|
  alloc := None;
  dalloc := Some (fun _ _ _ _ _ e => (false, S e));
  destroy := Some (fun _ _ _ _ _ e => (true, S e));
  commit := Some (fun _ _ _ _ _ _ e => (false, S e));
  decommit := Some (fun _ _ _ _ _ _ e => (false, S e));
  purge_lazy := Some (fun _ _ _ _ _ _ e => (false, S e));
  purge_forced := Some (fun _ _ _ _ _ _ e => (false, S e));
  split := Some (fun _ _ _ _ _ _ _ e => (true, S e));
  merge := Some (fun _ _ _ _ _ _ _ e => (true, S e))
|}.

(** Three handles: at 8 on the default table (address 100), at 16 on
    [only_alloc] (address 200), at 24 on [no_alloc] (address 300).  Thread
    1 has a context, thread 2 has none yet; thread 1 is running. *)
Definition w0 (lazy forced : bool) : world nat := {|
  ehooks_mem := {[ 8 := {| ptr := 100 |}; 16 := {| ptr := 200 |};
                   24 := {| ptr := 300 |} ]};
  hooks_mem := {[ 100 := default_table lazy forced; 200 := only_alloc;
                  300 := no_alloc ]};
  tsd_mem := {[ 1%nat := {| reentrancy_level := 0 |} ]};
  cur_thread := 1;
  ext := 0%nat;
  trace := []
|}.

(** Two threads, three handles, hooks that succeed and hooks that refuse:
    thread 2 has no context when it first calls. *)
Definition interleaving : list invocation := [
  {| inv_thread := 1; inv_tsdn := Some 1%nat; inv_ehooks := 16;
     inv_request := ReqAlloc 0 4096 4096 false true 0 |};
  {| inv_thread := 2; inv_tsdn := None; inv_ehooks := 24;
     inv_request := ReqSplit 4096 8192 4096 4096 true 0 |};
  {| inv_thread := 1; inv_tsdn := Some 1%nat; inv_ehooks := 8;
     inv_request := ReqDalloc 4096 4096 true 0 |};
  {| inv_thread := 2; inv_tsdn := None; inv_ehooks := 24;
     inv_request := ReqDestroy 4096 4096 true 0 |};
  {| inv_thread := 1; inv_tsdn := None; inv_ehooks := 16;
     inv_request := ReqCommit 4096 4096 0 4096 0 |}
].

(** Thread 1 calls commit through the handle at 24, with a null [tsdn]. *)
Definition commit_through_24 : invocation :=
  {| inv_thread := 1; inv_tsdn := None; inv_ehooks := 24;
     inv_request := ReqCommit 4096 4096 0 4096 0 |}.

End Demo.

(** ** Properties *)

Section Properties.

Context {E : Type} `{X : !ehooks_extern E}.

(** *** The monad *)

Lemma bind_assoc {A B C : Type} (m : M E A) (f : A -> M E B) (g : B -> M E C) w :
  bind (bind m f) g w = bind m (fun x => bind (f x) g) w.
Proof. unfold bind. destruct (m w); reflexivity. Qed.

Lemma bind_Ok {A B : Type} (m : M E A) (k : A -> M E B) w a w' :
  m w = Ok a w' -> bind m k w = k a w'.
Proof. unfold bind. intros ->. reflexivity. Qed.

Lemma bind_Crash {A B : Type} (m : M E A) (k : A -> M E B) w w' :
  m w = Crash w' -> bind m k w = Crash w'.
Proof. unfold bind. intros ->. reflexivity. Qed.

(** *** Reading the handle and the table *)

Lemma bind_get {B : Type} ehooks (k : Z -> M E B) w h :
  ehooks_mem w !! ehooks = Some h ->
  bind (ehooks_get_extent_hooks_ptr ehooks) k w = k (ptr h) w.
Proof.
  intros H. apply bind_Ok.
  unfold ehooks_get_extent_hooks_ptr, atomic_load_p. rewrite H. reflexivity.
Qed.

Lemma bind_are_default {B : Type} ehooks (k : bool -> M E B) w h :
  ehooks_mem w !! ehooks = Some h ->
  bind (ehooks_are_default ehooks) k w =
  k (ptr h =? ehooks_default_extent_hooks) w.
Proof.
  intros H. apply bind_Ok. unfold ehooks_are_default.
  rewrite (bind_get _ _ _ _ H). reflexivity.
Qed.

Lemma bind_field {F B : Type} p (slot : extent_hooks_t E -> option F)
    (k : option F -> M E B) w T :
  hooks_mem w !! p = Some T -> bind (field p slot) k w = k (slot T) w.
Proof. intros H. apply bind_Ok. unfold field. rewrite H. reflexivity. Qed.

(** *** The guard around a hook *)

Ltac guard_done t Hd :=
  eexists; split; [reflexivity|];
  unfold guarded_call; cbn; repeat split;
  [ rewrite <- !app_assoc; reflexivity
  | intros t'; unfold level_of; cbn; rewrite !lookup_insert;
    destruct (decide (t = t')); subst; cbn; [rewrite ?Hd; cbn; lia | reflexivity]
  | intros t'; rewrite !lookup_insert; destruct (decide (t = t')); eauto ].

Ltac guard_run Hd HT Hf :=
  repeat (first [rewrite Hd | rewrite HT | rewrite Hf | rewrite lookup_insert_eq];
          cbn).

Ltac guard_unfold :=
  unfold ehooks_pre_reentrancy, ehooks_post_reentrancy, invoke, field, bind, ret,
    tsd_pre_reentrancy_raw, tsd_post_reentrancy_raw, tsd_fetch, tsdn_tsd,
    tsdn_null.

Lemma guard_roundtrip {F A : Type} tsdn k p (slot : extent_hooks_t E -> option F)
    (args : F -> E -> A * E) w T f :
  hooks_mem w !! p = Some T -> slot T = Some f -> tsdn_ready w tsdn = true ->
  exists w',
    (ehooks_pre_reentrancy tsdn;;
     r <- invoke k p slot args;
     ehooks_post_reentrancy tsdn;;
     ret r) w = Ok (fst (args f (ext w))) w' /\
    guarded_call w tsdn k p (snd (args f (ext w))) w'.
Proof.
  intros HT Hf Hr. guard_unfold.
  destruct tsdn as [t|]; cbn in *.
  - apply bool_decide_eq_true in Hr. destruct Hr as [d Hd].
    guard_run Hd HT Hf. guard_done t Hd.
  - destruct (tsd_mem w !! cur_thread w) as [d|] eqn:Hd; cbn;
      guard_run Hd HT Hf; guard_done (cur_thread w) Hd.
Qed.

Lemma guard_roundtrip_void {F A : Type} tsdn k p
    (slot : extent_hooks_t E -> option F) (args : F -> E -> A * E) w T f :
  hooks_mem w !! p = Some T -> slot T = Some f -> tsdn_ready w tsdn = true ->
  exists w',
    (ehooks_pre_reentrancy tsdn;;
     invoke k p slot args;;
     ehooks_post_reentrancy tsdn) w = Ok tt w' /\
    guarded_call w tsdn k p (snd (args f (ext w))) w'.
Proof.
  intros HT Hf Hr. guard_unfold.
  destruct tsdn as [t|]; cbn in *.
  - apply bool_decide_eq_true in Hr. destruct Hr as [d Hd].
    guard_run Hd HT Hf. guard_done t Hd.
  - destruct (tsd_mem w !! cur_thread w) as [d|] eqn:Hd; cbn;
      guard_run Hd HT Hf; guard_done (cur_thread w) Hd.
Qed.

(** A dangling [tsdn] faults at the entry of the guard. *)
Lemma guard_dangling {B : Type} tsdn (k : unit -> M E B) w :
  tsdn_ready w tsdn = false ->
  bind (ehooks_pre_reentrancy tsdn) k w = Crash w.
Proof.
  intros Hr. apply bind_Crash.
  unfold ehooks_pre_reentrancy, bind, tsd_pre_reentrancy_raw, tsdn_tsd, ret.
  destruct tsdn as [t|]; cbn in *; [|discriminate].
  apply bool_decide_eq_false in Hr.
  destruct (tsd_mem w !! t) eqn:Hd; [|reflexivity].
  exfalso. apply Hr. eauto.
Qed.

(** *** The three paths of a wrapper *)

Ltac enter H :=
  unfold dispatch, ehooks_alloc, ehooks_dalloc, ehooks_destroy, ehooks_commit,
    ehooks_decommit, ehooks_purge_lazy, ehooks_purge_forced, ehooks_split,
    ehooks_merge;
  rewrite bind_assoc, (bind_get _ _ _ _ H); cbv beta;
  try (rewrite bind_assoc, (bind_are_default _ _ _ _ H); cbv beta).

Ltac read_slot HT :=
  try (rewrite bind_assoc, (bind_field _ _ _ _ _ HT); cbv beta).

(** Default table, fast path compiled in: the fast path and nothing else. *)
Lemma dispatch_default tsdn ehooks r w h :
  ehooks_mem w !! ehooks = Some h ->
  ptr h = ehooks_default_extent_hooks ->
  has_fast_path (kind_of r) = true ->
  dispatch tsdn ehooks r w = direct (kind_of r) (fast_path tsdn r) w.
Proof.
  intros H Hp Hf.
  destruct r; cbn in Hf; enter H; rewrite Hp, Z.eqb_refl, ?Hf; reflexivity.
Qed.

(** Slot absent, any wrapper but [alloc]: the canned result, state as it
    was. *)
Lemma dispatch_absent tsdn ehooks r w h T :
  ehooks_mem w !! ehooks = Some h ->
  has_fast_path (kind_of r) && (ptr h =? ehooks_default_extent_hooks) = false ->
  hooks_mem w !! ptr h = Some T ->
  slot_call (ptr h) T r = None ->
  kind_of r <> Alloc ->
  dispatch tsdn ehooks r w = Ok (fallback (kind_of r)) w.
Proof.
  intros H Hp HT Hs Hk.
  destruct r; cbn in Hp, Hs, Hk; try congruence; enter H; rewrite ?Hp;
    read_slot HT; apply fmap_None in Hs; rewrite Hs; reflexivity.
Qed.

(** Slot present: one guarded call of the hook, whose result is handed
    back. *)
Lemma dispatch_present tsdn ehooks r w h T g :
  ehooks_mem w !! ehooks = Some h ->
  has_fast_path (kind_of r) && (ptr h =? ehooks_default_extent_hooks) = false ->
  hooks_mem w !! ptr h = Some T ->
  slot_call (ptr h) T r = Some g ->
  tsdn_ready w tsdn = true ->
  exists w',
    dispatch tsdn ehooks r w = Ok (fst (g (ext w))) w' /\
    guarded_call w tsdn (kind_of r) (ptr h) (snd (g (ext w))) w'.
Proof.
  intros H Hp HT Hs Hr.
  destruct r; cbn in Hp, Hs; apply fmap_Some in Hs; destruct Hs as (f & Hf & ->);
    enter H; rewrite ?Hp; read_slot HT; rewrite ?Hf; cbn [is_NULL];
    match goal with
    | |- context [invoke ?k ?p ?slot ?args] =>
        first
          [ destruct (guard_roundtrip tsdn k p slot args w T f HT Hf Hr)
              as (w' & Heq & Hg);
            rewrite (bind_Ok _ _ _ _ _ Heq)
          | destruct (guard_roundtrip_void tsdn k p slot args w T f HT Hf Hr)
              as (w' & Heq & Hg);
            rewrite (bind_Ok _ _ _ _ _ Heq) ];
        exists w'; split; [reflexivity | exact Hg]
    end.
Qed.

(** Slot present but [tsdn] dangling: the wrapper faults before the hook. *)
Lemma dispatch_dangling tsdn ehooks r w h T g :
  ehooks_mem w !! ehooks = Some h ->
  has_fast_path (kind_of r) && (ptr h =? ehooks_default_extent_hooks) = false ->
  hooks_mem w !! ptr h = Some T ->
  slot_call (ptr h) T r = Some g ->
  tsdn_ready w tsdn = false ->
  dispatch tsdn ehooks r w = Crash w.
Proof.
  intros H Hp HT Hs Hr.
  destruct r; cbn in Hp, Hs; apply fmap_Some in Hs; destruct Hs as (f & Hf & ->);
    enter H; rewrite ?Hp; read_slot HT; rewrite ?Hf; cbn [is_NULL];
    rewrite ?bind_assoc; apply guard_dangling; exact Hr.
Qed.

(** [alloc] on a custom table without an [alloc] hook: the guard is
    entered, then a null function pointer is called. *)
Lemma alloc_absent tsdn ehooks new_addr size alignment zero commit arena_ind w h T :
  ehooks_mem w !! ehooks = Some h ->
  ptr h <> ehooks_default_extent_hooks ->
  hooks_mem w !! ptr h = Some T ->
  alloc T = None ->
  tsdn_ready w tsdn = true ->
  exists w',
    ehooks_alloc tsdn ehooks new_addr size alignment zero commit arena_ind w
      = Crash w' /\
    trace w' = trace w ++ [EvPre (guard_thread w tsdn)].
Proof.
  intros H Hp HT Hs Hr. apply Z.eqb_neq in Hp.
  unfold ehooks_alloc. rewrite (bind_get _ _ _ _ H), Hp.
  unfold ehooks_pre_reentrancy, invoke, field, bind, tsd_pre_reentrancy_raw,
    tsd_fetch, tsdn_tsd, tsdn_null, ret.
  destruct tsdn as [t|]; cbn in *.
  - apply bool_decide_eq_true in Hr. destruct Hr as [d Hd].
    rewrite Hd; cbn. rewrite HT, Hs. eexists; split; reflexivity.
  - destruct (tsd_mem w !! cur_thread w) as [d|] eqn:Hd; cbn.
    + rewrite Hd; cbn. rewrite HT, Hs. eexists; split; reflexivity.
    + rewrite lookup_insert_eq; cbn. rewrite HT, Hs. eexists; split; reflexivity.
Qed.

(** *** Who writes the handle *)

Create HintDb frame.

Lemma keeps_ret {A : Type} (a : A) : keeps_handles (E := E) (ret a).
Proof. intros w. reflexivity. Qed.

Lemma keeps_bind {A B : Type} (m : M E A) (k : A -> M E B) :
  keeps_handles m -> (forall a, keeps_handles (k a)) -> keeps_handles (bind m k).
Proof.
  intros Hm Hk w. unfold bind. specialize (Hm w).
  destruct (m w) as [a w'|w']; cbn in Hm; [|exact Hm].
  rewrite (Hk a w'). exact Hm.
Qed.

Lemma keeps_crash {A : Type} : keeps_handles (A := A) (fun w : world E => Crash w).
Proof. intros w. reflexivity. Qed.

Lemma keeps_direct {A : Type} k (impl : E -> A * E) : keeps_handles (direct k impl).
Proof. intros w. reflexivity. Qed.

Lemma keeps_field {F : Type} p (slot : extent_hooks_t E -> option F) :
  keeps_handles (field p slot).
Proof. intros w. unfold field. destruct (hooks_mem w !! p); reflexivity. Qed.

Lemma keeps_invoke {F A : Type} k p (slot : extent_hooks_t E -> option F)
    (args : F -> E -> A * E) : keeps_handles (invoke k p slot args).
Proof.
  apply keeps_bind; [apply keeps_field|].
  intros [g|] w; reflexivity.
Qed.

Lemma keeps_atomic_load_p a mo : keeps_handles (E := E) (atomic_load_p a mo).
Proof. intros w. unfold atomic_load_p. destruct (ehooks_mem w !! a); reflexivity. Qed.

Lemma keeps_tsd_fetch : keeps_handles (E := E) tsd_fetch.
Proof.
  intros w. unfold tsd_fetch. destruct (tsd_mem w !! cur_thread w); reflexivity.
Qed.

Lemma keeps_tsdn_tsd tsdn : keeps_handles (E := E) (tsdn_tsd tsdn).
Proof. intros w. destruct tsdn; reflexivity. Qed.

Lemma keeps_tsd_pre_reentrancy_raw t :
  keeps_handles (E := E) (tsd_pre_reentrancy_raw t).
Proof.
  intros w. unfold tsd_pre_reentrancy_raw. destruct (tsd_mem w !! t); reflexivity.
Qed.

Lemma keeps_tsd_post_reentrancy_raw t :
  keeps_handles (E := E) (tsd_post_reentrancy_raw t).
Proof.
  intros w. unfold tsd_post_reentrancy_raw. destruct (tsd_mem w !! t); reflexivity.
Qed.

Hint Resolve keeps_ret keeps_crash keeps_direct keeps_field keeps_invoke
  keeps_atomic_load_p keeps_tsd_fetch keeps_tsdn_tsd
  keeps_tsd_pre_reentrancy_raw keeps_tsd_post_reentrancy_raw : frame.

Ltac frame :=
  repeat first
    [ solve [auto with frame]
    | apply keeps_bind; [|intros]
    | match goal with
      | |- keeps_handles (if ?b then _ else _) => destruct b
      end ].

Lemma keeps_pre_reentrancy tsdn : keeps_handles (E := E) (ehooks_pre_reentrancy tsdn).
Proof. unfold ehooks_pre_reentrancy. frame. Qed.

Lemma keeps_post_reentrancy tsdn : keeps_handles (E := E) (ehooks_post_reentrancy tsdn).
Proof. unfold ehooks_post_reentrancy. frame. Qed.

Lemma keeps_get ehooks : keeps_handles (E := E) (ehooks_get_extent_hooks_ptr ehooks).
Proof. unfold ehooks_get_extent_hooks_ptr. frame. Qed.

Hint Resolve keeps_pre_reentrancy keeps_post_reentrancy keeps_get : frame.

Lemma keeps_are_default ehooks : keeps_handles (ehooks_are_default ehooks).
Proof. unfold ehooks_are_default. frame. Qed.

Hint Resolve keeps_are_default : frame.

Lemma keeps_split_will_fail ehooks :
  keeps_handles (E := E) (ehooks_split_will_fail ehooks).
Proof. unfold ehooks_split_will_fail. frame. Qed.

Lemma keeps_merge_will_fail ehooks :
  keeps_handles (E := E) (ehooks_merge_will_fail ehooks).
Proof. unfold ehooks_merge_will_fail. frame. Qed.

Lemma keeps_dispatch tsdn ehooks r : keeps_handles (dispatch tsdn ehooks r).
Proof.
  destruct r;
    unfold dispatch, ehooks_alloc, ehooks_dalloc, ehooks_destroy, ehooks_commit,
      ehooks_decommit, ehooks_purge_lazy, ehooks_purge_forced, ehooks_split,
      ehooks_merge;
    frame.
Qed.

(** *** Sequences of calls *)

Lemma guard_discipline_app a : forall o b,
  guard_discipline o a = true -> guard_discipline [] b = true ->
  guard_discipline o (a ++ b) = true.
Proof.
  induction a as [|ev a IH]; intros o b Ha Hb; cbn in *.
  - destruct o; [exact Hb | discriminate].
  - destruct ev; cbn in *.
    + apply IH; assumption.
    + destruct o as [|t' o]; [discriminate|].
      apply andb_true_iff in Ha. destruct Ha as [Ht Ha].
      rewrite Ht. cbn. apply IH; assumption.
    + destruct o; [apply IH; assumption | discriminate].
    + destruct o; [discriminate | apply IH; assumption].
Qed.

Lemma guard_balanced_refl (w : world E) : guard_balanced w w.
Proof.
  repeat split; auto. exists []. rewrite app_nil_r. split; reflexivity.
Qed.

Lemma guard_balanced_trans (w1 w2 w3 : world E) :
  guard_balanced w1 w2 -> guard_balanced w2 w3 -> guard_balanced w1 w3.
Proof.
  intros (Ha & Hb & Hc & Hd & tr1 & He & Hf) (Ha' & Hb' & Hc' & Hd' & tr2 & He' & Hf').
  repeat split.
  - congruence.
  - congruence.
  - auto.
  - intros t. rewrite Hd'. apply Hd.
  - exists (tr1 ++ tr2). split.
    + rewrite He', He, app_assoc. reflexivity.
    + apply guard_discipline_app; assumption.
Qed.

Lemma guarded_call_balanced (w : world E) tsdn k p e' w' :
  guarded_call w tsdn k p e' w' -> guard_balanced w w'.
Proof.
  intros (Ha & Hb & _ & _ & Ht & Hl & Hd).
  repeat split; auto.
  eexists; split; [exact Ht|]. cbn. rewrite Nat.eqb_refl. reflexivity.
Qed.

Lemma with_cur_thread_balanced t (w : world E) :
  guard_balanced w (with_cur_thread t w).
Proof.
  repeat split; auto. exists []. cbn. rewrite app_nil_r. split; reflexivity.
Qed.

Lemma ready_mono w w' i :
  guard_balanced w w' -> ready w i = true -> ready w' i = true.
Proof.
  intros (Ha & Hb & Hc & _) Hr. unfold ready in *. rewrite Ha, Hb.
  apply andb_true_iff in Hr. destruct Hr as [Ht Hr]. rewrite Hr, andb_true_r.
  unfold tsdn_ready in *. destruct (inv_tsdn i) as [t|]; [|reflexivity].
  apply bool_decide_eq_true. apply bool_decide_eq_true in Ht. auto.
Qed.

Lemma perform_balanced w i :
  ready w i = true ->
  exists r w', perform i w = Ok r w' /\ guard_balanced w w'.
Proof.
  intros Hr. unfold perform.
  pose proof (with_cur_thread_balanced (inv_thread i) w) as Hw.
  apply (ready_mono _ _ _ Hw) in Hr.
  set (w1 := with_cur_thread (inv_thread i) w) in *.
  unfold ready in Hr. apply andb_true_iff in Hr. destruct Hr as [Ht Hr].
  destruct (ehooks_mem w1 !! inv_ehooks i) as [h|] eqn:H; [|discriminate].
  destruct (has_fast_path (kind_of (inv_request i))
            && (ptr h =? ehooks_default_extent_hooks)) eqn:Hp.
  - apply andb_true_iff in Hp. destruct Hp as [Hf Hp]. apply Z.eqb_eq in Hp.
    rewrite (dispatch_default _ _ _ _ _ H Hp Hf). unfold direct.
    eexists; eexists; split; [reflexivity|].
    apply (guard_balanced_trans _ _ _ Hw).
    repeat split; auto. eexists; split; reflexivity.
  - rewrite orb_false_l in Hr.
    destruct (hooks_mem w1 !! ptr h) as [T|] eqn:HT; [|discriminate].
    destruct (slot_call (ptr h) T (inv_request i)) as [g|] eqn:Hs.
    + destruct (dispatch_present _ _ _ _ _ _ _ H Hp HT Hs Ht) as (w' & Heq & Hg).
      rewrite Heq. eexists; eexists; split; [reflexivity|].
      apply (guard_balanced_trans _ _ _ Hw).
      apply (guarded_call_balanced _ _ _ _ _ _ Hg).
    + rewrite (dispatch_absent _ _ _ _ _ _ H Hp HT Hs).
      * eexists; eexists; split; [reflexivity | exact Hw].
      * intros Hk. rewrite Hk in Hr. destruct (inv_request i); try discriminate.
        cbn in Hs. apply fmap_None in Hs. rewrite Hs in Hr. discriminate.
Qed.

Lemma perform_all_balanced l : forall w,
  forallb (ready w) l = true ->
  exists rs w',
    perform_all l w = Ok rs w' /\ length rs = length l /\ guard_balanced w w'.
Proof.
  induction l as [|i l IH]; intros w Hr; cbn in *.
  - exists [], w. split; [reflexivity|]. split; [reflexivity|].
    apply guard_balanced_refl.
  - apply andb_true_iff in Hr. destruct Hr as [Hi Hl].
    destruct (perform_balanced w i Hi) as (r & w1 & Heq & Hb).
    destruct (IH w1) as (rs & w2 & Heq2 & Hlen & Hb2).
    + rewrite forallb_forall in *. intros j Hj.
      apply (ready_mono _ _ _ Hb). auto.
    + exists (r :: rs), w2. split; [|split].
      * rewrite (bind_Ok _ _ _ _ _ Heq), (bind_Ok _ _ _ _ _ Heq2). reflexivity.
      * cbn. congruence.
      * exact (guard_balanced_trans _ _ _ Hb Hb2).
Qed.

(** *** The claims *)

Lemma fallback_bool k : bool_result k = true -> fallback k = RepBool true.
Proof. destruct k; cbn; congruence. Qed.

Lemma bool_result_not_alloc k : bool_result k = true -> k <> Alloc.
Proof. destruct k; cbn; congruence. Qed.

Lemma custom_table_no_fast_path k p :
  p <> ehooks_default_extent_hooks ->
  has_fast_path k && (p =? ehooks_default_extent_hooks) = false.
Proof. intros Hp. apply Z.eqb_neq in Hp. rewrite Hp. apply andb_false_r. Qed.

(** C1.  Each of the seven wrappers with a boolean result (dalloc, commit,
    decommit, purge_lazy, purge_forced, split, merge), on a handle whose
    table is not the default one: when the slot of the operation is absent
    the wrapper returns [true] and the state, trace included, is as it
    was, so the guard was not engaged and nothing was called; and [false]
    comes back only from a present hook that itself answered [false],
    called once under the guard. *)
Theorem absent_slot_is_failure tsdn ehooks r w h T :
  bool_result (kind_of r) = true ->
  ehooks_mem w !! ehooks = Some h ->
  ptr h <> ehooks_default_extent_hooks ->
  hooks_mem w !! ptr h = Some T ->
  (slot_call (ptr h) T r = None ->
   dispatch tsdn ehooks r w = Ok (RepBool true) w) /\
  (forall w', dispatch tsdn ehooks r w = Ok (RepBool false) w' ->
     exists g, slot_call (ptr h) T r = Some g /\
               fst (g (ext w)) = RepBool false /\
               guarded_call w tsdn (kind_of r) (ptr h) (snd (g (ext w))) w').
Proof.
  intros Hb H Hp HT.
  pose proof (custom_table_no_fast_path (kind_of r) _ Hp) as Hn.
  pose proof (bool_result_not_alloc _ Hb) as Hk.
  split.
  - intros Hs. rewrite (dispatch_absent _ _ _ _ _ _ H Hn HT Hs Hk).
    rewrite (fallback_bool _ Hb). reflexivity.
  - intros w' Hd.
    destruct (slot_call (ptr h) T r) as [g|] eqn:Hs.
    + destruct (tsdn_ready w tsdn) eqn:Hr.
      * destruct (dispatch_present _ _ _ _ _ _ _ H Hn HT Hs Hr) as (w1 & Heq & Hg).
        rewrite Heq in Hd. injection Hd as Hres Hw. subst w1.
        exists g. auto.
      * rewrite (dispatch_dangling _ _ _ _ _ _ _ H Hn HT Hs Hr) in Hd.
        discriminate.
    + rewrite (dispatch_absent _ _ _ _ _ _ H Hn HT Hs Hk) in Hd.
      rewrite (fallback_bool _ Hb) in Hd. discriminate.
Qed.

(** C2, amended.  On a handle whose table reference is the address of the
    default table, [ehooks_are_default] returns [true], and every wrapper
    into which the build compiles a test against the default table (all of
    them but purge_lazy and purge_forced without their capability flag)
    makes exactly one call, of its default fast path, and hands back its
    result: no guard, no call through a slot. *)
Theorem default_table_takes_fast_path tsdn ehooks r w h :
  ehooks_mem w !! ehooks = Some h ->
  ptr h = ehooks_default_extent_hooks ->
  ehooks_are_default ehooks w = Ok true w /\
  (has_fast_path (kind_of r) = true ->
   dispatch tsdn ehooks r w =
   Ok (fst (fast_path tsdn r (ext w)))
      (called (EvDefault (kind_of r)) (snd (fast_path tsdn r (ext w))) w)).
Proof.
  intros H Hp. split.
  - unfold ehooks_are_default. rewrite (bind_get _ _ _ _ H), Hp, Z.eqb_refl.
    reflexivity.
  - intros Hf. rewrite (dispatch_default _ _ _ _ _ H Hp Hf). reflexivity.
Qed.

(** C3, amended.  Without the capability flag of lazy (forced) purge the
    wrapper only lacks the test against the default table: for any table,
    the default one included, it returns [true] with the state as it was
    when the purge slot is absent, and when the slot is populated it calls
    the hook once under the guard and returns the hook's result. *)
Theorem purge_without_capability tsdn ehooks addr size offset length arena_ind
    w h T :
  ehooks_mem w !! ehooks = Some h ->
  hooks_mem w !! ptr h = Some T ->
  tsdn_ready w tsdn = true ->
  (PAGES_CAN_PURGE_LAZY = false ->
   match purge_lazy T with
   | None =>
       ehooks_purge_lazy tsdn ehooks addr size offset length arena_ind w
       = Ok true w
   | Some f =>
       exists w',
         ehooks_purge_lazy tsdn ehooks addr size offset length arena_ind w
         = Ok (fst (f (ptr h) addr size offset length arena_ind (ext w))) w' /\
         guarded_call w tsdn PurgeLazy (ptr h)
           (snd (f (ptr h) addr size offset length arena_ind (ext w))) w'
   end) /\
  (PAGES_CAN_PURGE_FORCED = false ->
   match purge_forced T with
   | None =>
       ehooks_purge_forced tsdn ehooks addr size offset length arena_ind w
       = Ok true w
   | Some f =>
       exists w',
         ehooks_purge_forced tsdn ehooks addr size offset length arena_ind w
         = Ok (fst (f (ptr h) addr size offset length arena_ind (ext w))) w' /\
         guarded_call w tsdn PurgeForced (ptr h)
           (snd (f (ptr h) addr size offset length arena_ind (ext w))) w'
   end).
Proof.
  intros H HT Hr. split; intros Hflag.
  - unfold ehooks_purge_lazy. rewrite (bind_get _ _ _ _ H), Hflag. cbn [andb].
    rewrite (bind_field _ _ _ _ _ HT).
    destruct (purge_lazy T) as [f|] eqn:Hf; cbn [is_NULL]; [|reflexivity].
    exact (guard_roundtrip tsdn PurgeLazy (ptr h) purge_lazy _ w T f HT Hf Hr).
  - unfold ehooks_purge_forced. rewrite (bind_get _ _ _ _ H), Hflag. cbn [andb].
    rewrite (bind_field _ _ _ _ _ HT).
    destruct (purge_forced T) as [f|] eqn:Hf; cbn [is_NULL]; [|reflexivity].
    exact (guard_roundtrip tsdn PurgeForced (ptr h) purge_forced _ w T f HT Hf Hr).
Qed.

(** C4, amended.  [ehooks_split_will_fail] and [ehooks_merge_will_fail]
    are pure: they return whether the split (merge) slot of the current
    table is absent and leave the state as it was.  When the predicate is
    [true] and the table is not the default one, [ehooks_split]
    ([ehooks_merge]) returns [true] with the state as it was.  The
    converse is not claimed: a present hook may still answer [true]. *)
Theorem will_fail_predicts_failure tsdn ehooks addr size size_a addr_b size_b
    committed arena_ind w h T :
  ehooks_mem w !! ehooks = Some h ->
  hooks_mem w !! ptr h = Some T ->
  ehooks_split_will_fail ehooks w = Ok (is_NULL (split T)) w /\
  ehooks_merge_will_fail ehooks w = Ok (is_NULL (merge T)) w /\
  (ptr h <> ehooks_default_extent_hooks ->
   ehooks_split_will_fail ehooks w = Ok true w ->
   ehooks_split tsdn ehooks addr size size_a size_b committed arena_ind w
   = Ok true w) /\
  (ptr h <> ehooks_default_extent_hooks ->
   ehooks_merge_will_fail ehooks w = Ok true w ->
   ehooks_merge tsdn ehooks addr size_a addr_b size_b committed arena_ind w
   = Ok true w).
Proof.
  intros H HT.
  assert (Hs : ehooks_split_will_fail ehooks w = Ok (is_NULL (split T)) w).
  { unfold ehooks_split_will_fail.
    rewrite (bind_get _ _ _ _ H), (bind_field _ _ _ _ _ HT). reflexivity. }
  assert (Hm : ehooks_merge_will_fail ehooks w = Ok (is_NULL (merge T)) w).
  { unfold ehooks_merge_will_fail.
    rewrite (bind_get _ _ _ _ H), (bind_field _ _ _ _ _ HT). reflexivity. }
  repeat split; try assumption.
  - intros Hp Hw. rewrite Hs in Hw. injection Hw as Hn.
    apply Z.eqb_neq in Hp. unfold ehooks_split.
    rewrite (bind_get _ _ _ _ H), (bind_are_default _ _ _ _ H), Hp.
    rewrite (bind_field _ _ _ _ _ HT), Hn. reflexivity.
  - intros Hp Hw. rewrite Hm in Hw. injection Hw as Hn.
    apply Z.eqb_neq in Hp. unfold ehooks_merge.
    rewrite (bind_get _ _ _ _ H), Hp.
    rewrite (bind_field _ _ _ _ _ HT), Hn. reflexivity.
Qed.

(** C5.  Any sequence of dispatch calls, made by any threads in any order,
    each under the preconditions of its wrapper, returns; afterwards the
    reentrancy counter of every thread is what it was before the sequence,
    and in the calls made in between every entry of the guard is followed
    by exactly one exit on the same context, with the hook call in
    between.  A single call is the sequence of length one. *)
Theorem guard_balance (l : list invocation) (w : world E) :
  forallb (ready w) l = true ->
  exists rs w',
    perform_all l w = Ok rs w' /\
    length rs = length l /\
    (forall t, level_of w' t = level_of w t) /\
    exists tr, trace w' = trace w ++ tr /\ guard_discipline [] tr = true.
Proof.
  intros Hr.
  destruct (perform_all_balanced l w Hr) as (rs & w' & Heq & Hlen & Hb).
  destruct Hb as (_ & _ & _ & Hl & Htr).
  exists rs, w'. auto.
Qed.

(** C7.  The nine wrappers, [ehooks_are_default],
    [ehooks_split_will_fail], [ehooks_merge_will_fail] and
    [ehooks_get_extent_hooks_ptr] leave every handle as they found it, on
    every path, faulting ones included; [ehooks_set_extent_hooks_ptr] and
    [ehooks_init] store the new reference in the handle they are given. *)
Theorem only_install_writes_the_handle tsdn ehooks r p (w : world E) :
  ehooks_mem (final (dispatch tsdn ehooks r w)) = ehooks_mem w /\
  ehooks_mem (final (ehooks_are_default ehooks w)) = ehooks_mem w /\
  ehooks_mem (final (ehooks_split_will_fail ehooks w)) = ehooks_mem w /\
  ehooks_mem (final (ehooks_merge_will_fail ehooks w)) = ehooks_mem w /\
  ehooks_mem (final (ehooks_get_extent_hooks_ptr ehooks w)) = ehooks_mem w /\
  ehooks_mem (final (ehooks_set_extent_hooks_ptr ehooks p w)) =
    match ehooks_mem w !! ehooks with
    | Some _ => <[ehooks := {| ptr := p |}]> (ehooks_mem w)
    | None => ehooks_mem w
    end /\
  ehooks_mem (final (ehooks_init ehooks p w)) =
    match ehooks_mem w !! ehooks with
    | Some _ => <[ehooks := {| ptr := p |}]> (ehooks_mem w)
    | None => ehooks_mem w
    end.
Proof.
  repeat split.
  - apply keeps_dispatch.
  - apply keeps_are_default.
  - apply keeps_split_will_fail.
  - apply keeps_merge_will_fail.
  - apply keeps_get.
  - unfold ehooks_set_extent_hooks_ptr, atomic_store_p.
    destruct (ehooks_mem w !! ehooks); reflexivity.
  - unfold ehooks_init.
    destruct (ehooks_mem w !! ehooks); reflexivity.
Qed.

(** C8.  [ehooks_destroy] on a handle whose table is not the default one:
    with the destroy slot absent it returns at once and the state, trace
    included, is as it was; with a destroy hook present it calls the hook
    once under the guard and returns nothing, so the outcome is the same
    whatever the hook answers. *)
Theorem destroy_absent_is_noop tsdn ehooks addr size committed arena_ind w h T :
  ehooks_mem w !! ehooks = Some h ->
  ptr h <> ehooks_default_extent_hooks ->
  hooks_mem w !! ptr h = Some T ->
  match destroy T with
  | None =>
      ehooks_destroy tsdn ehooks addr size committed arena_ind w = Ok tt w
  | Some f =>
      tsdn_ready w tsdn = true ->
      exists w',
        ehooks_destroy tsdn ehooks addr size committed arena_ind w = Ok tt w' /\
        guarded_call w tsdn Destroy (ptr h)
          (snd (f (ptr h) addr size committed arena_ind (ext w))) w'
  end.
Proof.
  intros H Hp HT. apply Z.eqb_neq in Hp.
  unfold ehooks_destroy. rewrite (bind_get _ _ _ _ H), Hp.
  rewrite (bind_field _ _ _ _ _ HT).
  destruct (destroy T) as [f|] eqn:Hf; cbn [is_NULL]; [|reflexivity].
  intros Hr.
  exact (guard_roundtrip_void tsdn Destroy (ptr h) destroy _ w T f HT Hf Hr).
Qed.

(** C9.  With a null [tsdn] both halves of the guard return in every
    state: they take the context of the calling thread from [tsd_fetch],
    which establishes one if the thread has none, and apply the raw entry
    (exit) to it; afterwards the thread has a context, its counter is one
    higher (lower) and the entry (exit) is the one call recorded. *)
Theorem guard_tolerates_null_tsdn (w : world E) :
  ehooks_pre_reentrancy None w = (tsd <- tsd_fetch; tsd_pre_reentrancy_raw tsd) w /\
  ehooks_post_reentrancy None w = (tsd <- tsd_fetch; tsd_post_reentrancy_raw tsd) w /\
  (exists w',
     ehooks_pre_reentrancy None w = Ok tt w' /\
     is_Some (tsd_mem w' !! cur_thread w) /\
     level_of w' (cur_thread w) = level_of w (cur_thread w) + 1 /\
     trace w' = trace w ++ [EvPre (cur_thread w)]) /\
  (exists w',
     ehooks_post_reentrancy None w = Ok tt w' /\
     is_Some (tsd_mem w' !! cur_thread w) /\
     level_of w' (cur_thread w) = level_of w (cur_thread w) - 1 /\
     trace w' = trace w ++ [EvPost (cur_thread w)]).
Proof.
  split; [reflexivity|]. split; [reflexivity|].
  unfold ehooks_pre_reentrancy, ehooks_post_reentrancy, bind, tsd_fetch,
    tsd_pre_reentrancy_raw, tsd_post_reentrancy_raw, tsdn_null, level_of.
  destruct (tsd_mem w !! cur_thread w) as [d|] eqn:Hd; cbn.
  - rewrite Hd. split; eexists; (split; [reflexivity|]); cbn;
      rewrite lookup_insert_eq; cbn; eauto.
  - rewrite lookup_insert_eq. split; eexists; (split; [reflexivity|]); cbn;
      rewrite lookup_insert_eq; cbn; eauto.
Qed.

(** C10.  [ehooks_alloc] has no test of its slot.  On a handle whose table
    is not the default one it enters the guard and calls through the
    alloc slot: with a hook present the hook's result is handed back after
    the guard is left; with the slot absent the call of the null pointer
    faults, the guard entered and not left, and no result is returned. *)
Theorem alloc_requires_hook tsdn ehooks new_addr size alignment zero commit
    arena_ind w h T :
  ehooks_mem w !! ehooks = Some h ->
  ptr h <> ehooks_default_extent_hooks ->
  hooks_mem w !! ptr h = Some T ->
  tsdn_ready w tsdn = true ->
  match alloc T with
  | Some f =>
      exists w',
        ehooks_alloc tsdn ehooks new_addr size alignment zero commit arena_ind w
        = Ok (fst (f (ptr h) new_addr size alignment zero commit arena_ind (ext w)))
             w' /\
        guarded_call w tsdn Alloc (ptr h)
          (snd (f (ptr h) new_addr size alignment zero commit arena_ind (ext w)))
          w'
  | None =>
      exists w',
        ehooks_alloc tsdn ehooks new_addr size alignment zero commit arena_ind w
        = Crash w' /\
        trace w' = trace w ++ [EvPre (guard_thread w tsdn)]
  end.
Proof.
  intros H Hp HT Hr.
  destruct (alloc T) as [f|] eqn:Hf.
  - apply Z.eqb_neq in Hp. unfold ehooks_alloc.
    rewrite (bind_get _ _ _ _ H), Hp.
    exact (guard_roundtrip tsdn Alloc (ptr h) alloc _ w T f HT Hf Hr).
  - exact (alloc_absent tsdn ehooks new_addr size alignment zero commit arena_ind
             w h T H Hp HT Hf Hr).
Qed.

(** ** Further properties of the header *)

(** *** Relations kept on every path *)

Lemma stable_ret (R : world E -> world E -> Prop) `{!Reflexive R}
    {A : Type} (a : A) : stable R (ret a).
Proof. intros w. cbn. reflexivity. Qed.

Lemma stable_crash (R : world E -> world E -> Prop) `{!Reflexive R}
    {A : Type} : stable R (A := A) (fun w : world E => Crash w).
Proof. intros w. cbn. reflexivity. Qed.

Lemma stable_bind (R : world E -> world E -> Prop) `{!Transitive R}
    {A B : Type} (m : M E A) (k : A -> M E B) :
  stable R m -> (forall a, stable R (k a)) -> stable R (bind m k).
Proof.
  intros Hm Hk w. unfold bind. specialize (Hm w).
  destruct (m w) as [a w'|w']; cbn in Hm; [|exact Hm].
  transitivity w'; [exact Hm | apply Hk].
Qed.

#[local] Instance same_tables_refl : Reflexive (same_tables (E := E)).
Proof. intros w. reflexivity. Qed.

#[local] Instance same_tables_trans : Transitive (same_tables (E := E)).
Proof. intros w1 w2 w3 H1 H2. unfold same_tables in *. congruence. Qed.

#[local] Instance confined_refl tsdn : Reflexive (confined (E := E) tsdn).
Proof. intros w. split; auto. Qed.

#[local] Instance confined_trans tsdn : Transitive (confined (E := E) tsdn).
Proof.
  intros w1 w2 w3 [Hc1 Ht1] [Hc2 Ht2]. split; [congruence|].
  intros t Ht. rewrite Ht2, Ht1; auto.
  unfold guard_thread in *. destruct tsdn; congruence.
Qed.

(** Whatever touches neither the tables, nor the contexts, nor the
    running thread keeps both relations. *)
Lemma stable_untouched {A : Type} (m : M E A) tsdn :
  (forall w, hooks_mem (final (m w)) = hooks_mem w /\
             tsd_mem (final (m w)) = tsd_mem w /\
             cur_thread (final (m w)) = cur_thread w) ->
  stable same_tables m /\ stable (confined tsdn) m.
Proof.
  intros H. split; intros w; destruct (H w) as (Ha & Hb & Hc).
  - exact Ha.
  - split; [exact Hc|]. intros t _. rewrite Hb. reflexivity.
Qed.

Lemma untouched_direct {A : Type} k (impl : E -> A * E) tsdn :
  stable same_tables (direct k impl) /\ stable (confined tsdn) (direct k impl).
Proof. apply stable_untouched. intros w. repeat split. Qed.

Lemma untouched_field {F : Type} p (slot : extent_hooks_t E -> option F) tsdn :
  stable same_tables (field p slot) /\ stable (confined tsdn) (field p slot).
Proof.
  apply stable_untouched. intros w. unfold field.
  destruct (hooks_mem w !! p); repeat split.
Qed.

Lemma untouched_invoke {F A : Type} k p (slot : extent_hooks_t E -> option F)
    (args : F -> E -> A * E) tsdn :
  stable same_tables (invoke k p slot args) /\
  stable (confined tsdn) (invoke k p slot args).
Proof.
  apply stable_untouched. intros w. unfold invoke, field, bind.
  destruct (hooks_mem w !! p) as [T|]; [|repeat split].
  destruct (slot T); repeat split.
Qed.

Lemma untouched_get ehooks tsdn :
  stable same_tables (E := E) (ehooks_get_extent_hooks_ptr ehooks) /\
  stable (confined tsdn) (E := E) (ehooks_get_extent_hooks_ptr ehooks).
Proof.
  apply stable_untouched. intros w.
  unfold ehooks_get_extent_hooks_ptr, atomic_load_p.
  destruct (ehooks_mem w !! ehooks); repeat split.
Qed.

Lemma untouched_store a v mo tsdn :
  stable same_tables (E := E) (atomic_store_p a v mo) /\
  stable (confined tsdn) (E := E) (atomic_store_p a v mo).
Proof.
  apply stable_untouched. intros w. unfold atomic_store_p.
  destruct (ehooks_mem w !! a); repeat split.
Qed.

Lemma untouched_init ehooks p tsdn :
  stable same_tables (E := E) (ehooks_init ehooks p) /\
  stable (confined tsdn) (E := E) (ehooks_init ehooks p).
Proof.
  apply stable_untouched. intros w. unfold ehooks_init.
  destruct (ehooks_mem w !! ehooks); repeat split.
Qed.

(** The two halves of the guard write one context: the one they work on. *)
Lemma guard_half_stable tsdn (raw : nat -> M E unit) :
  (forall t w, hooks_mem (final (raw t w)) = hooks_mem w /\
               cur_thread (final (raw t w)) = cur_thread w /\
               forall t', t' <> t -> tsd_mem (final (raw t w)) !! t' = tsd_mem w !! t') ->
  stable same_tables
    (tsd <- (if tsdn_null tsdn then tsd_fetch else tsdn_tsd tsdn); raw tsd) /\
  stable (confined tsdn)
    (tsd <- (if tsdn_null tsdn then tsd_fetch else tsdn_tsd tsdn); raw tsd).
Proof.
  intros Hraw.
  assert (H : forall w,
    let w' := final ((tsd <- (if tsdn_null tsdn then tsd_fetch else tsdn_tsd tsdn);
                      raw tsd) w) in
    hooks_mem w' = hooks_mem w /\ cur_thread w' = cur_thread w /\
    forall t, t <> guard_thread w tsdn -> tsd_mem w' !! t = tsd_mem w !! t).
  { intros w. unfold bind, tsd_fetch, tsdn_tsd, tsdn_null, ret.
    destruct tsdn as [t0|]; cbn.
    - apply Hraw.
    - destruct (tsd_mem w !! cur_thread w) as [d|] eqn:Hd; cbn.
      + apply Hraw.
      + match goal with
        | |- context [raw ?t ?w1] => destruct (Hraw t w1) as (Ha & Hb & Hc)
        end.
        cbn in *. repeat split; auto.
        intros t Ht. rewrite Hc by exact Ht.
        apply lookup_insert_ne. congruence. }
  split; intros w; destruct (H w) as (Ha & Hb & Hc); [exact Ha | split; assumption].
Qed.

Lemma raw_pre_writes_one t (w : world E) :
  hooks_mem (final (tsd_pre_reentrancy_raw t w)) = hooks_mem w /\
  cur_thread (final (tsd_pre_reentrancy_raw t w)) = cur_thread w /\
  forall t', t' <> t ->
    tsd_mem (final (tsd_pre_reentrancy_raw t w)) !! t' = tsd_mem w !! t'.
Proof.
  unfold tsd_pre_reentrancy_raw.
  destruct (tsd_mem w !! t); cbn; repeat split; auto.
  intros t' Ht. apply lookup_insert_ne. congruence.
Qed.

Lemma raw_post_writes_one t (w : world E) :
  hooks_mem (final (tsd_post_reentrancy_raw t w)) = hooks_mem w /\
  cur_thread (final (tsd_post_reentrancy_raw t w)) = cur_thread w /\
  forall t', t' <> t ->
    tsd_mem (final (tsd_post_reentrancy_raw t w)) !! t' = tsd_mem w !! t'.
Proof.
  unfold tsd_post_reentrancy_raw.
  destruct (tsd_mem w !! t); cbn; repeat split; auto.
  intros t' Ht. apply lookup_insert_ne. congruence.
Qed.

Lemma stable_pre tsdn :
  stable same_tables (E := E) (ehooks_pre_reentrancy tsdn) /\
  stable (confined tsdn) (E := E) (ehooks_pre_reentrancy tsdn).
Proof. apply guard_half_stable. apply raw_pre_writes_one. Qed.

Lemma stable_post tsdn :
  stable same_tables (E := E) (ehooks_post_reentrancy tsdn) /\
  stable (confined tsdn) (E := E) (ehooks_post_reentrancy tsdn).
Proof. apply guard_half_stable. apply raw_post_writes_one. Qed.

Ltac stable_step :=
  first
    [ apply stable_ret; exact _
    | apply (proj1 (untouched_direct _ _ None))
    | apply (proj2 (untouched_direct _ _ _))
    | apply (proj1 (untouched_field _ _ None))
    | apply (proj2 (untouched_field _ _ _))
    | apply (proj1 (untouched_invoke _ _ _ _ None))
    | apply (proj2 (untouched_invoke _ _ _ _ _))
    | apply (proj1 (untouched_get _ None))
    | apply (proj2 (untouched_get _ _))
    | apply (proj1 (stable_pre _))
    | apply (proj2 (stable_pre _))
    | apply (proj1 (stable_post _))
    | apply (proj2 (stable_post _))
    | apply stable_bind; [exact _ | | intros]
    | match goal with
      | |- stable _ (if ?b then _ else _) => destruct b
      end ].

Lemma stable_are_default ehooks tsdn :
  stable same_tables (ehooks_are_default ehooks) /\
  stable (confined tsdn) (ehooks_are_default ehooks).
Proof. unfold ehooks_are_default. split; repeat stable_step. Qed.

Lemma stable_dispatch tsdn ehooks r :
  stable same_tables (dispatch tsdn ehooks r) /\
  stable (confined tsdn) (dispatch tsdn ehooks r).
Proof.
  split; destruct r;
    unfold dispatch, ehooks_alloc, ehooks_dalloc, ehooks_destroy, ehooks_commit,
      ehooks_decommit, ehooks_purge_lazy, ehooks_purge_forced, ehooks_split,
      ehooks_merge;
    repeat first
      [ apply (proj1 (stable_are_default _ None))
      | apply (proj2 (stable_are_default _ _))
      | stable_step ].
Qed.

(** *** What a call under its preconditions does *)

Lemma ready_inv w i :
  ready w i = true ->
  tsdn_ready w (inv_tsdn i) = true /\
  exists h, ehooks_mem w !! inv_ehooks i = Some h /\
    (has_fast_path (kind_of (inv_request i))
     && (ptr h =? ehooks_default_extent_hooks) = true \/
     has_fast_path (kind_of (inv_request i))
     && (ptr h =? ehooks_default_extent_hooks) = false /\
     exists T, hooks_mem w !! ptr h = Some T /\
       (slot_call (ptr h) T (inv_request i) = None ->
        kind_of (inv_request i) <> Alloc)).
Proof.
  intros Hr. unfold ready in Hr. apply andb_true_iff in Hr.
  destruct Hr as [Ht Hr]. split; [exact Ht|].
  destruct (ehooks_mem w !! inv_ehooks i) as [h|]; [|discriminate].
  exists h. split; [reflexivity|].
  destruct (has_fast_path (kind_of (inv_request i))
            && (ptr h =? ehooks_default_extent_hooks)); [left; reflexivity|].
  right. split; [reflexivity|]. rewrite orb_false_l in Hr.
  destruct (hooks_mem w !! ptr h) as [T|]; [|discriminate].
  exists T. split; [reflexivity|].
  intros Hs Hk. rewrite Hk in Hr. destruct (inv_request i); try discriminate.
  cbn in Hs. apply fmap_None in Hs. rewrite Hs in Hr. discriminate.
Qed.

Lemma dispatch_shape w i :
  ready w i = true ->
  exists h rep w',
    ehooks_mem w !! inv_ehooks i = Some h /\
    dispatch (inv_tsdn i) (inv_ehooks i) (inv_request i) w = Ok rep w' /\
    ((has_fast_path (kind_of (inv_request i))
      && (ptr h =? ehooks_default_extent_hooks) = true /\
      rep = fst (fast_path (inv_tsdn i) (inv_request i) (ext w)) /\
      w' = called (EvDefault (kind_of (inv_request i)))
             (snd (fast_path (inv_tsdn i) (inv_request i) (ext w))) w) \/
     (has_fast_path (kind_of (inv_request i))
      && (ptr h =? ehooks_default_extent_hooks) = false /\
      exists T, hooks_mem w !! ptr h = Some T /\
        (slot_call (ptr h) T (inv_request i) = None /\
         rep = fallback (kind_of (inv_request i)) /\ w' = w \/
         exists g, slot_call (ptr h) T (inv_request i) = Some g /\
           rep = fst (g (ext w)) /\
           guarded_call w (inv_tsdn i) (kind_of (inv_request i)) (ptr h)
             (snd (g (ext w))) w'))).
Proof.
  intros Hr. destruct (ready_inv w i Hr) as (Ht & h & H & [Hp | (Hp & T & HT & Hk)]).
  - pose proof Hp as Hp'. apply andb_true_iff in Hp'. destruct Hp' as [Hf He].
    apply Z.eqb_eq in He.
    exists h. eexists. eexists. split; [exact H|]. split.
    + rewrite (dispatch_default _ _ _ _ _ H He Hf). reflexivity.
    + left. auto.
  - destruct (slot_call (ptr h) T (inv_request i)) as [g|] eqn:Hs.
    + destruct (dispatch_present _ _ _ _ _ _ _ H Hp HT Hs Ht) as (w' & Heq & Hg).
      exists h, (fst (g (ext w))), w'. split; [exact H|]. split; [exact Heq|].
      right. split; [exact Hp|]. exists T. split; [exact HT|]. right.
      exists g. auto.
    + exists h, (fallback (kind_of (inv_request i))), w.
      split; [exact H|]. split.
      * apply (dispatch_absent _ _ _ _ _ _ H Hp HT Hs). auto.
      * right. split; [exact Hp|]. exists T. split; [exact HT|]. left. auto.
Qed.

(** Two states that agree on everything a call reads are told apart by
    no call. *)
Lemma dispatch_same_view (w v : world E) i :
  ehooks_mem v !! inv_ehooks i = ehooks_mem w !! inv_ehooks i ->
  hooks_mem v = hooks_mem w -> tsd_mem v = tsd_mem w ->
  cur_thread v = cur_thread w -> ext v = ext w -> trace v = trace w ->
  ready w i = true ->
  exists rep w' v',
    dispatch (inv_tsdn i) (inv_ehooks i) (inv_request i) w = Ok rep w' /\
    dispatch (inv_tsdn i) (inv_ehooks i) (inv_request i) v = Ok rep v' /\
    ext v' = ext w' /\ trace v' = trace w' /\
    (forall t, level_of v' t = level_of w' t).
Proof.
  intros He Hh Htsd Hc Hx Htr Hr.
  assert (Hlv : forall t, level_of v t = level_of w t).
  { intros t. unfold level_of. rewrite Htsd. reflexivity. }
  assert (Hgt : forall tsdn, guard_thread v tsdn = guard_thread w tsdn).
  { intros [t|]; cbn; congruence. }
  destruct (ready_inv w i Hr) as (Ht & h & H & [Hp | (Hp & T & HT & Hk)]).
  - pose proof Hp as Hp'. apply andb_true_iff in Hp'. destruct Hp' as [Hf He'].
    apply Z.eqb_eq in He'.
    rewrite (dispatch_default _ _ _ _ _ H He' Hf).
    rewrite <- He in H. rewrite (dispatch_default _ _ _ _ _ H He' Hf).
    unfold direct. rewrite Hx. eexists. eexists. eexists.
    split; [reflexivity|]. split; [reflexivity|]. cbn.
    split; [reflexivity|]. split; [congruence|].
    intros t. unfold level_of. cbn. rewrite Htsd. reflexivity.
  - assert (Htv : tsdn_ready v (inv_tsdn i) = true).
    { unfold tsdn_ready in *. rewrite Htsd. exact Ht. }
    pose proof H as Hv. rewrite <- He in Hv.
    pose proof HT as HTv. rewrite <- Hh in HTv.
    destruct (slot_call (ptr h) T (inv_request i)) as [g|] eqn:Hs.
    + destruct (dispatch_present _ _ _ _ _ _ _ H Hp HT Hs Ht)
        as (w' & Heq & (_ & _ & _ & Hxw & Htw & Hlw & _)).
      destruct (dispatch_present _ _ _ _ _ _ _ Hv Hp HTv Hs Htv)
        as (v' & Heqv & (_ & _ & _ & Hxv & Htvr & Hlvv & _)).
      rewrite Heq, Heqv, Hx. eexists. eexists. eexists.
      split; [reflexivity|]. split; [reflexivity|].
      split; [congruence|]. split.
      * rewrite Htvr, Htw, Hgt, Htr. reflexivity.
      * intros t. rewrite Hlvv, Hlw. apply Hlv.
    + specialize (Hk eq_refl).
      rewrite (dispatch_absent _ _ _ _ _ _ H Hp HT Hs Hk).
      rewrite (dispatch_absent _ _ _ _ _ _ Hv Hp HTv Hs Hk).
      eexists. eexists. eexists.
      split; [reflexivity|]. split; [reflexivity|]. auto.
Qed.

Lemma set_ok ehooks p (w : world E) h :
  ehooks_mem w !! ehooks = Some h ->
  ehooks_set_extent_hooks_ptr ehooks p w
  = Ok tt (with_ehooks_mem (<[ehooks := {| ptr := p |}]> (ehooks_mem w)) w).
Proof.
  intros H. unfold ehooks_set_extent_hooks_ptr, atomic_store_p. rewrite H.
  reflexivity.
Qed.

Lemma get_ok ehooks (w : world E) h :
  ehooks_mem w !! ehooks = Some h ->
  ehooks_get_extent_hooks_ptr ehooks w = Ok (ptr h) w.
Proof.
  intros H. unfold ehooks_get_extent_hooks_ptr, atomic_load_p. rewrite H.
  reflexivity.
Qed.

(** *** Installing and reading the reference *)

(** X1.  Install and read are a round trip on a live handle:
    [ehooks_get_extent_hooks_ptr] returns what
    [ehooks_set_extent_hooks_ptr] stored last, whatever was there before;
    a second install overrides the first; installing the reference the
    handle already holds changes nothing at all; and no other handle
    changes. *)
Theorem install_round_trip ehooks p q (w : world E) h :
  ehooks_mem w !! ehooks = Some h ->
  exists w1,
    ehooks_set_extent_hooks_ptr ehooks p w = Ok tt w1 /\
    ehooks_get_extent_hooks_ptr ehooks w1 = Ok p w1 /\
    (forall other, other <> ehooks ->
       ehooks_mem w1 !! other = ehooks_mem w !! other) /\
    ehooks_set_extent_hooks_ptr ehooks q w1
    = ehooks_set_extent_hooks_ptr ehooks q w /\
    (p = ptr h -> w1 = w).
Proof.
  intros H. eexists. split; [apply (set_ok _ _ _ _ H)|].
  split; [|split; [|split]].
  - unfold ehooks_get_extent_hooks_ptr, atomic_load_p. cbn.
    rewrite lookup_insert_eq. reflexivity.
  - intros other Hne. cbn. apply lookup_insert_ne. congruence.
  - unfold ehooks_set_extent_hooks_ptr, atomic_store_p. cbn.
    rewrite lookup_insert_eq, H. unfold with_ehooks_mem. cbn.
    rewrite insert_insert_eq. reflexivity.
  - intros ->. destruct h as [ph]. cbn.
    unfold with_ehooks_mem. rewrite (insert_id _ _ _ H).
    destruct w; reflexivity.
Qed.

(** X2.  An install takes effect at the next dispatch through the handle,
    and the reference held before plays no part: after installing the
    address of the default table the wrapper takes the fast path; after
    installing a table without the slot it returns the canned result;
    after installing a table with the hook it calls that hook under the
    guard. *)
Theorem install_takes_effect tsdn ehooks p r (w : world E) h :
  ehooks_mem w !! ehooks = Some h ->
  exists w1,
    ehooks_set_extent_hooks_ptr ehooks p w = Ok tt w1 /\
    (p = ehooks_default_extent_hooks -> has_fast_path (kind_of r) = true ->
     dispatch tsdn ehooks r w1
     = Ok (fst (fast_path tsdn r (ext w)))
          (called (EvDefault (kind_of r)) (snd (fast_path tsdn r (ext w))) w1)) /\
    (forall T, p <> ehooks_default_extent_hooks ->
       hooks_mem w !! p = Some T -> kind_of r <> Alloc ->
       slot_call p T r = None ->
       dispatch tsdn ehooks r w1 = Ok (fallback (kind_of r)) w1) /\
    (forall T g, p <> ehooks_default_extent_hooks ->
       hooks_mem w !! p = Some T -> slot_call p T r = Some g ->
       tsdn_ready w tsdn = true ->
       exists w',
         dispatch tsdn ehooks r w1 = Ok (fst (g (ext w))) w' /\
         guarded_call w1 tsdn (kind_of r) p (snd (g (ext w))) w').
Proof.
  intros H.
  set (w1 := with_ehooks_mem (<[ehooks := {| ptr := p |}]> (ehooks_mem w)) w).
  assert (H1 : ehooks_mem w1 !! ehooks = Some {| ptr := p |}).
  { unfold w1. cbn. apply lookup_insert_eq. }
  exists w1. split; [apply (set_ok _ _ _ _ H)|]. split; [|split].
  - intros Hp Hf.
    rewrite (dispatch_default tsdn ehooks r w1 _ H1 Hp Hf). reflexivity.
  - intros T Hp HT Hk Hs.
    apply (dispatch_absent tsdn ehooks r w1 {| ptr := p |} T H1); auto.
    apply (custom_table_no_fast_path _ _ Hp).
  - intros T g Hp HT Hs Hr.
    apply (dispatch_present tsdn ehooks r w1 {| ptr := p |} T g H1); auto.
    apply (custom_table_no_fast_path _ _ Hp).
Qed.

(** X3.  Handles are independent: an install on one handle changes
    nothing a dispatch through another handle returns or does, namely its
    result, its effect on the external state, the calls it makes and the
    counters it leaves. *)
Theorem handles_are_independent i ehooks p (w : world E) :
  ready w i = true ->
  inv_ehooks i <> ehooks ->
  exists rep w' v',
    dispatch (inv_tsdn i) (inv_ehooks i) (inv_request i) w = Ok rep w' /\
    dispatch (inv_tsdn i) (inv_ehooks i) (inv_request i)
      (final (ehooks_set_extent_hooks_ptr ehooks p w)) = Ok rep v' /\
    ext v' = ext w' /\ trace v' = trace w' /\
    (forall t, level_of v' t = level_of w' t).
Proof.
  intros Hr Hne.
  apply dispatch_same_view; try exact Hr;
    unfold ehooks_set_extent_hooks_ptr, atomic_store_p;
    destruct (ehooks_mem w !! ehooks); cbn; try reflexivity.
  apply lookup_insert_ne. congruence.
Qed.

(** X4.  A dispatch call under its preconditions does exactly one of
    three things: it makes one call, of the default fast path of its own
    operation, and nothing else; or it returns the canned result with the
    state as it was; or it makes one call, of the hook of its own
    operation in the table the handle holds, between one entry and one
    exit of the guard.  In each case the result of the backend is handed
    back as it is. *)
Theorem one_backend_call_at_most (w : world E) i :
  ready w i = true ->
  exists h rep w',
    ehooks_mem w !! inv_ehooks i = Some h /\
    dispatch (inv_tsdn i) (inv_ehooks i) (inv_request i) w = Ok rep w' /\
    ((has_fast_path (kind_of (inv_request i))
      && (ptr h =? ehooks_default_extent_hooks) = true /\
      rep = fst (fast_path (inv_tsdn i) (inv_request i) (ext w)) /\
      w' = called (EvDefault (kind_of (inv_request i)))
             (snd (fast_path (inv_tsdn i) (inv_request i) (ext w))) w) \/
     (has_fast_path (kind_of (inv_request i))
      && (ptr h =? ehooks_default_extent_hooks) = false /\
      exists T, hooks_mem w !! ptr h = Some T /\
        (slot_call (ptr h) T (inv_request i) = None /\
         rep = fallback (kind_of (inv_request i)) /\ w' = w \/
         exists g, slot_call (ptr h) T (inv_request i) = Some g /\
           rep = fst (g (ext w)) /\
           guarded_call w (inv_tsdn i) (kind_of (inv_request i)) (ptr h)
             (snd (g (ext w))) w'))).
Proof. apply dispatch_shape. Qed.

(** *** The guard on its own *)

(** X5.  Entry and exit of the guard with the same [tsdn], null or not,
    work on the same context.  The entry raises the counter of that
    context by one and touches the counter of no other thread; the exit
    that follows brings every counter back; the two calls are all that is
    recorded, and handles, tables and the external state are as they
    were. *)
Theorem guard_enter_exit tsdn (w : world E) :
  tsdn_ready w tsdn = true ->
  exists w1 w2,
    ehooks_pre_reentrancy tsdn w = Ok tt w1 /\
    ehooks_post_reentrancy tsdn w1 = Ok tt w2 /\
    level_of w1 (guard_thread w tsdn) = level_of w (guard_thread w tsdn) + 1 /\
    (forall t, t <> guard_thread w tsdn -> level_of w1 t = level_of w t) /\
    (forall t, level_of w2 t = level_of w t) /\
    trace w2 = trace w ++ [EvPre (guard_thread w tsdn);
                           EvPost (guard_thread w tsdn)] /\
    ext w2 = ext w /\ ehooks_mem w2 = ehooks_mem w /\ hooks_mem w2 = hooks_mem w.
Proof.
  intros Hr.
  unfold ehooks_pre_reentrancy, ehooks_post_reentrancy, bind, ret,
    tsd_pre_reentrancy_raw, tsd_post_reentrancy_raw, tsd_fetch, tsdn_tsd,
    tsdn_null.
  assert (Hgoal : forall t (m : gmap nat tsd_t) l,
    level_of w t = l ->
    (forall t', t' <> t -> m !! t' = tsd_mem w !! t') ->
    let w1 := logged (EvPre t)
                (with_tsd_mem (<[t := {| reentrancy_level := l + 1 |}]> m) w) in
    let w2 := logged (EvPost t)
                (with_tsd_mem
                   (<[t := {| reentrancy_level := l + 1 - 1 |}]>
                      (<[t := {| reentrancy_level := l + 1 |}]> m)) w1) in
    level_of w1 t = level_of w t + 1 /\
    (forall t', t' <> t -> level_of w1 t' = level_of w t') /\
    (forall t', level_of w2 t' = level_of w t') /\
    trace w2 = trace w ++ [EvPre t; EvPost t] /\
    ext w2 = ext w /\ ehooks_mem w2 = ehooks_mem w /\ hooks_mem w2 = hooks_mem w).
  { intros t m l Hl Hm. cbn. unfold level_of in *. cbn.
    rewrite lookup_insert_eq. cbn. repeat split; try reflexivity.
    - lia.
    - intros t' Ht. rewrite lookup_insert_ne by congruence.
      rewrite (Hm t' Ht). reflexivity.
    - intros t'. rewrite !lookup_insert.
      destruct (decide (t = t')) as [<-|Hne]; cbn; [lia|].
      rewrite Hm by congruence. reflexivity.
    - rewrite <- !app_assoc. reflexivity. }
  destruct tsdn as [t|]; cbn in *.
  - apply bool_decide_eq_true in Hr. destruct Hr as [d Hd].
    rewrite Hd. cbn. eexists. eexists. split; [reflexivity|]. cbn.
    rewrite lookup_insert_eq. cbn. split; [reflexivity|].
    apply (Hgoal t (tsd_mem w) (reentrancy_level d)); [|auto].
    unfold level_of. rewrite Hd. reflexivity.
  - destruct (tsd_mem w !! cur_thread w) as [d|] eqn:Hd; cbn.
    + rewrite Hd. cbn. eexists. eexists. split; [reflexivity|]. cbn.
      rewrite lookup_insert_eq. cbn. rewrite lookup_insert_eq. cbn.
      split; [reflexivity|].
      apply (Hgoal (cur_thread w) (tsd_mem w) (reentrancy_level d)); [|auto].
      unfold level_of. rewrite Hd. reflexivity.
    + rewrite lookup_insert_eq. cbn. eexists. eexists. split; [reflexivity|].
      cbn. rewrite lookup_insert_eq. cbn. rewrite lookup_insert_eq. cbn.
      split; [reflexivity|].
      rewrite !(insert_insert_eq (tsd_mem w)).
      pose proof (Hgoal (cur_thread w) (tsd_mem w) 0) as Hg. cbn in Hg.
      rewrite !insert_insert_eq in Hg. apply Hg; [|auto].
      unfold level_of. rewrite Hd. reflexivity.
Qed.

(** *** The default fast paths *)

(** X6.  On a handle that holds the default table the wrappers pass on
    only part of what they are given: the outcome of dalloc and destroy
    depends on [addr] and [size] alone, that of commit, decommit and
    (under their flag) the two purges on [addr], [offset] and [length]
    alone, that of merge on the two addresses alone and that of split on
    none of its arguments; [tsdn], [committed], [arena_ind] and the sizes
    left out never reach the default backend.  Only alloc passes
    everything on. *)
Theorem default_path_ignores_arguments ehooks (w : world E) h
    tsdn tsdn' addr addr' size size' offset length arena_ind arena_ind'
    committed committed' size_a size_a' size_b size_b' addr_b :
  ehooks_mem w !! ehooks = Some h ->
  ptr h = ehooks_default_extent_hooks ->
  ehooks_dalloc tsdn ehooks addr size committed arena_ind w
  = ehooks_dalloc tsdn' ehooks addr size committed' arena_ind' w /\
  ehooks_destroy tsdn ehooks addr size committed arena_ind w
  = ehooks_destroy tsdn' ehooks addr size committed' arena_ind' w /\
  ehooks_commit tsdn ehooks addr size offset length arena_ind w
  = ehooks_commit tsdn' ehooks addr size' offset length arena_ind' w /\
  ehooks_decommit tsdn ehooks addr size offset length arena_ind w
  = ehooks_decommit tsdn' ehooks addr size' offset length arena_ind' w /\
  (PAGES_CAN_PURGE_LAZY = true ->
   ehooks_purge_lazy tsdn ehooks addr size offset length arena_ind w
   = ehooks_purge_lazy tsdn' ehooks addr size' offset length arena_ind' w) /\
  (PAGES_CAN_PURGE_FORCED = true ->
   ehooks_purge_forced tsdn ehooks addr size offset length arena_ind w
   = ehooks_purge_forced tsdn' ehooks addr size' offset length arena_ind' w) /\
  ehooks_split tsdn ehooks addr size size_a size_b committed arena_ind w
  = ehooks_split tsdn' ehooks addr' size' size_a' size_b' committed' arena_ind' w /\
  ehooks_merge tsdn ehooks addr size_a addr_b size_b committed arena_ind w
  = ehooks_merge tsdn' ehooks addr size_a' addr_b size_b' committed' arena_ind' w.
Proof.
  intros H Hp.
  unfold ehooks_dalloc, ehooks_destroy, ehooks_commit, ehooks_decommit,
    ehooks_purge_lazy, ehooks_purge_forced, ehooks_split, ehooks_merge.
  rewrite !(bind_get _ _ _ _ H), !(bind_are_default _ _ _ _ H), Hp, Z.eqb_refl.
  repeat split; try reflexivity; intros ->; reflexivity.
Qed.

(** *** What no operation of the header does *)

(** X7.  No operation of the header writes a hook table: after the nine
    wrappers, the three predicates, the getter, the two halves of the
    guard, [ehooks_set_extent_hooks_ptr] and [ehooks_init] the memory
    holding the tables is what it was, on every path, faulting ones
    included. *)
Theorem tables_never_written tsdn ehooks r p (w : world E) :
  hooks_mem (final (dispatch tsdn ehooks r w)) = hooks_mem w /\
  hooks_mem (final (ehooks_are_default ehooks w)) = hooks_mem w /\
  hooks_mem (final (ehooks_split_will_fail ehooks w)) = hooks_mem w /\
  hooks_mem (final (ehooks_merge_will_fail ehooks w)) = hooks_mem w /\
  hooks_mem (final (ehooks_get_extent_hooks_ptr ehooks w)) = hooks_mem w /\
  hooks_mem (final (ehooks_pre_reentrancy tsdn w)) = hooks_mem w /\
  hooks_mem (final (ehooks_post_reentrancy tsdn w)) = hooks_mem w /\
  hooks_mem (final (ehooks_set_extent_hooks_ptr ehooks p w)) = hooks_mem w /\
  hooks_mem (final (ehooks_init ehooks p w)) = hooks_mem w.
Proof.
  repeat split.
  - apply (proj1 (stable_dispatch tsdn ehooks r)).
  - apply (proj1 (stable_are_default ehooks None)).
  - revert w. apply (stable_bind same_tables); [apply (proj1 (untouched_get _ None))|].
    intros a. apply (stable_bind same_tables); [apply (proj1 (untouched_field _ _ None))|].
    intros f. apply stable_ret. exact _.
  - revert w. apply (stable_bind same_tables); [apply (proj1 (untouched_get _ None))|].
    intros a. apply (stable_bind same_tables); [apply (proj1 (untouched_field _ _ None))|].
    intros f. apply stable_ret. exact _.
  - apply (proj1 (untouched_get ehooks None)).
  - apply (proj1 (stable_pre tsdn)).
  - apply (proj1 (stable_post tsdn)).
  - apply (proj1 (untouched_store ehooks p ATOMIC_RELEASE None)).
  - apply (proj1 (untouched_init ehooks p None)).
Qed.

(** X8.  A dispatch call, on every path, faulting ones included, touches
    the context of one thread at most, the one its guard works on (the
    one [tsdn] points to, or the calling thread's when [tsdn] is null):
    the context of every other thread, established or not, is what it
    was, and the running thread is the same. *)
Theorem other_threads_untouched tsdn ehooks r (w : world E) :
  cur_thread (final (dispatch tsdn ehooks r w)) = cur_thread w /\
  forall t, t <> guard_thread w tsdn ->
    tsd_mem (final (dispatch tsdn ehooks r w)) !! t = tsd_mem w !! t.
Proof. apply (proj2 (stable_dispatch tsdn ehooks r)). Qed.

(** *** Split and merge *)

(** X9.  On a handle whose table is not the default one, [ehooks_split]
    returns, and it returns [true] exactly when
    [ehooks_split_will_fail] says so or the split hook itself answers
    [true]; likewise [ehooks_merge] with [ehooks_merge_will_fail] and the
    merge hook. *)
Theorem split_merge_fail_iff tsdn ehooks addr size size_a addr_b size_b
    committed arena_ind (w : world E) h T :
  ehooks_mem w !! ehooks = Some h ->
  ptr h <> ehooks_default_extent_hooks ->
  hooks_mem w !! ptr h = Some T ->
  tsdn_ready w tsdn = true ->
  (exists b w',
     ehooks_split tsdn ehooks addr size size_a size_b committed arena_ind w
     = Ok b w' /\
     (b = true <->
      ehooks_split_will_fail ehooks w = Ok true w \/
      exists f, split T = Some f /\
        fst (f (ptr h) addr size size_a size_b committed arena_ind (ext w))
        = true)) /\
  (exists b w',
     ehooks_merge tsdn ehooks addr size_a addr_b size_b committed arena_ind w
     = Ok b w' /\
     (b = true <->
      ehooks_merge_will_fail ehooks w = Ok true w \/
      exists f, merge T = Some f /\
        fst (f (ptr h) addr size_a addr_b size_b committed arena_ind (ext w))
        = true)).
Proof.
  intros H Hp HT Hr. apply Z.eqb_neq in Hp. split.
  - unfold ehooks_split, ehooks_split_will_fail.
    rewrite !(bind_get _ _ _ _ H), (bind_are_default _ _ _ _ H), Hp.
    rewrite !(bind_field _ _ _ _ _ HT).
    destruct (split T) as [f|] eqn:Hf; cbn [is_NULL].
    + destruct (guard_roundtrip tsdn Split (ptr h) split
                  (fun f => f (ptr h) addr size size_a size_b committed arena_ind)
                  w T f HT Hf Hr) as (w' & Heq & _).
      rewrite Heq. eexists. eexists. split; [reflexivity|]. split.
      * intros Hb. right. exists f. auto.
      * intros [Hw | (f' & Hf' & Hb)]; [discriminate Hw|].
        injection Hf' as <-. exact Hb.
    + exists true, w. split; [reflexivity|]. split; auto.
  - unfold ehooks_merge, ehooks_merge_will_fail.
    rewrite !(bind_get _ _ _ _ H), Hp.
    rewrite !(bind_field _ _ _ _ _ HT).
    destruct (merge T) as [f|] eqn:Hf; cbn [is_NULL].
    + destruct (guard_roundtrip tsdn Merge (ptr h) merge
                  (fun f => f (ptr h) addr size_a addr_b size_b committed arena_ind)
                  w T f HT Hf Hr) as (w' & Heq & _).
      rewrite Heq. eexists. eexists. split; [reflexivity|]. split.
      * intros Hb. right. exists f. auto.
      * intros [Hw | (f' & Hf' & Hb)]; [discriminate Hw|].
        injection Hf' as <-. exact Hb.
    + exists true, w. split; [reflexivity|]. split; auto.
Qed.

End Properties.

(** ** The claims on the concrete build *)

Module Examples.
Import Demo.

(** Scenario "custom table with only [alloc] populated": [dalloc] on the
    handle at 16 reports failure and touches nothing. *)
Lemma absent_slot_is_failure_witness :
  @dispatch nat (demo_extern true true) None 16 (ReqDalloc 4096 4096 true 0)
    (w0 true true)
  = Ok (RepBool true) (w0 true true).
Proof.
  refine (proj1 (@absent_slot_is_failure nat (demo_extern true true) None 16
                   (ReqDalloc 4096 4096 true 0) (w0 true true)
                   {| ptr := 200 |} only_alloc _ _ _ _) _).
  - reflexivity.
  - reflexivity.
  - cbn. lia.
  - reflexivity.
  - reflexivity.
Defined.

(** Scenario "handle initialized default": [alloc] of 4096 bytes aligned
    to 4096 is served by the default fast path alone, commit as asked. *)
Lemma default_table_takes_fast_path_witness :
  @ehooks_are_default nat (demo_extern true true) 8 (w0 true true)
  = Ok true (w0 true true) /\
  @dispatch nat (demo_extern true true) None 8
    (ReqAlloc 0 4096 4096 false true 0) (w0 true true)
  = Ok (RepAlloc (4096, false, true))
       (called (EvDefault Alloc) 1%nat (w0 true true)).
Proof.
  destruct (@default_table_takes_fast_path nat (demo_extern true true) None 8
              (ReqAlloc 0 4096 4096 false true 0) (w0 true true)
              {| ptr := 100 |} eq_refl eq_refl) as [Hd Hf].
  split; [exact Hd | exact (Hf eq_refl)].
Defined.

(** A build without the purge capabilities, the handle at 24 on a table
    with both purge hooks: the hooks are called, under the guard. *)
Lemma purge_without_capability_witness :
  (exists w',
     @ehooks_purge_lazy nat (demo_extern false false) None 24 4096 4096 0 4096 0
       (w0 false false) = Ok false w' /\
     guarded_call (w0 false false) None PurgeLazy 300 1%nat w') /\
  (exists w',
     @ehooks_purge_forced nat (demo_extern false false) None 24 4096 4096 0 4096 0
       (w0 false false) = Ok false w' /\
     guarded_call (w0 false false) None PurgeForced 300 1%nat w').
Proof.
  destruct (@purge_without_capability nat (demo_extern false false) None 24
              4096 4096 0 4096 0 (w0 false false) {| ptr := 300 |} no_alloc
              eq_refl eq_refl eq_refl) as [Hl Hf].
  split; [exact (Hl eq_refl) | exact (Hf eq_refl)].
Defined.

(** Scenario "custom table with [merge] = null" (and [split] = null): the
    predicates say so and the wrappers fail without a call. *)
Lemma will_fail_predicts_failure_witness :
  @ehooks_split_will_fail nat 16 (w0 true true) = Ok true (w0 true true) /\
  @ehooks_merge_will_fail nat 16 (w0 true true) = Ok true (w0 true true) /\
  @ehooks_split nat (demo_extern true true) None 16 4096 8192 4096 4096 true 0
    (w0 true true) = Ok true (w0 true true) /\
  @ehooks_merge nat (demo_extern true true) None 16 4096 4096 8192 4096 true 0
    (w0 true true) = Ok true (w0 true true).
Proof.
  destruct (@will_fail_predicts_failure nat (demo_extern true true) None 16
              4096 8192 4096 8192 4096 true 0 (w0 true true)
              {| ptr := 200 |} only_alloc eq_refl eq_refl)
    as (Hs & Hm & Hsplit & Hmerge).
  split; [exact Hs|]. split; [exact Hm|]. split.
  - apply Hsplit; [cbn; lia | exact Hs].
  - apply Hmerge; [cbn; lia | exact Hm].
Defined.

(** The interleaving of two threads on three handles returns, with every
    counter back at its value. *)
Lemma guard_balance_witness :
  exists rs w',
    @perform_all nat (demo_extern true true) interleaving (w0 true true)
    = Ok rs w' /\
    length rs = length interleaving /\
    (forall t, level_of w' t = level_of (w0 true true) t) /\
    exists tr, trace w' = trace (w0 true true) ++ tr /\
               guard_discipline [] tr = true.
Proof.
  apply (@guard_balance nat (demo_extern true true) interleaving (w0 true true)).
  vm_compute. reflexivity.
Defined.

(** [destroy] on the table with only [alloc]: nothing happens.  On the
    table whose destroy hook reports an error: the hook runs under the
    guard and the wrapper returns nothing. *)
Lemma destroy_absent_is_noop_witness :
  @ehooks_destroy nat (demo_extern true true) None 16 4096 4096 true 0
    (w0 true true) = Ok tt (w0 true true) /\
  exists w',
    @ehooks_destroy nat (demo_extern true true) None 24 4096 4096 true 0
      (w0 true true) = Ok tt w' /\
    guarded_call (w0 true true) None Destroy 300 1%nat w'.
Proof.
  split.
  - refine (@destroy_absent_is_noop nat (demo_extern true true) None 16
              4096 4096 true 0 (w0 true true) {| ptr := 200 |} only_alloc _ _ _).
    + reflexivity.
    + cbn. lia.
    + reflexivity.
  - refine (@destroy_absent_is_noop nat (demo_extern true true) None 24
              4096 4096 true 0 (w0 true true) {| ptr := 300 |} no_alloc _ _ _ _).
    + reflexivity.
    + cbn. lia.
    + reflexivity.
    + reflexivity.
Defined.

(** [alloc] on the table with an [alloc] hook: the hook's address comes
    back.  On the table without one: a fault inside the guard. *)
Lemma alloc_requires_hook_witness :
  (exists w',
     @ehooks_alloc nat (demo_extern true true) None 16 0 4096 4096 false true 0
       (w0 true true) = Ok (8192, false, true) w' /\
     guarded_call (w0 true true) None Alloc 200 1%nat w') /\
  (exists w',
     @ehooks_alloc nat (demo_extern true true) None 24 0 4096 4096 false true 0
       (w0 true true) = Crash w' /\
     trace w' = trace (w0 true true) ++ [EvPre 1]).
Proof.
  split.
  - refine (@alloc_requires_hook nat (demo_extern true true) None 16
              0 4096 4096 false true 0 (w0 true true) {| ptr := 200 |} only_alloc
              _ _ _ _).
    + reflexivity.
    + cbn. lia.
    + reflexivity.
    + reflexivity.
  - refine (@alloc_requires_hook nat (demo_extern true true) None 24
              0 4096 4096 false true 0 (w0 true true) {| ptr := 300 |} no_alloc
              _ _ _ _).
    + reflexivity.
    + cbn. lia.
    + reflexivity.
    + reflexivity.
Defined.

(** C2 as stated fails: in a build without [PAGES_CAN_PURGE_LAZY] the
    handle at 8 holds the default table, yet [ehooks_purge_lazy] reads the
    slot of that table, finds it absent and returns [true]; the default
    fast path is not called. *)
Lemma identity_dispatch_needs_capability :
  ehooks_mem (w0 false false) !! 8
  = Some {| ptr := @ehooks_default_extent_hooks nat (demo_extern false false) |} /\
  @dispatch nat (demo_extern false false) None 8
    (ReqPurgeLazy 4096 4096 0 4096 0) (w0 false false)
  = Ok (RepBool true) (w0 false false) /\
  @dispatch nat (demo_extern false false) None 8
    (ReqPurgeLazy 4096 4096 0 4096 0) (w0 false false)
  <> @direct nat reply PurgeLazy
       (@fast_path nat (demo_extern false false) None
          (ReqPurgeLazy 4096 4096 0 4096 0))
       (w0 false false).
Proof.
  split; [reflexivity|]. split; [reflexivity|].
  intros Heq. vm_compute in Heq. discriminate Heq.
Qed.

(** C3 as stated fails: in a build without [PAGES_CAN_PURGE_LAZY], on the
    handle at 24 whose table has a [purge_lazy] hook, the hook is called
    under the guard and its answer [false] is returned, not [true]. *)
Lemma purge_hook_called_without_capability :
  @PAGES_CAN_PURGE_LAZY nat (demo_extern false false) = false /\
  (exists w',
     @ehooks_purge_lazy nat (demo_extern false false) None 24 4096 4096 0 4096 0
       (w0 false false) = Ok false w' /\
     trace w' = [EvPre 1; EvHook PurgeLazy 300; EvPost 1]) /\
  @ehooks_purge_lazy nat (demo_extern false false) None 24 4096 4096 0 4096 0
    (w0 false false) <> Ok true (w0 false false).
Proof.
  split; [reflexivity|]. split.
  - eexists. split; reflexivity.
  - intros Heq. vm_compute in Heq. discriminate Heq.
Qed.

(** C4 as stated fails: on the handle at 24 the split and merge hooks are
    present, so both predicates answer [false], and yet the wrappers
    return [true] because the hooks refuse. *)
Lemma split_fails_unpredicted :
  @ehooks_split_will_fail nat 24 (w0 true true) = Ok false (w0 true true) /\
  (exists w',
     @ehooks_split nat (demo_extern true true) None 24 4096 8192 4096 4096 true 0
       (w0 true true) = Ok true w') /\
  @ehooks_merge_will_fail nat 24 (w0 true true) = Ok false (w0 true true) /\
  (exists w',
     @ehooks_merge nat (demo_extern true true) None 24 4096 4096 8192 4096 true 0
       (w0 true true) = Ok true w').
Proof.
  split; [reflexivity|]. split; [eexists; reflexivity|].
  split; [reflexivity|]. eexists; reflexivity.
Qed.

(** The handle at 16 holds 200; after installing 300 it reads 300, the
    handles at 8 and 24 read what they did, installing 100 next is as
    installing 100 at once. *)
Lemma install_round_trip_witness :
  exists w1,
    @ehooks_set_extent_hooks_ptr nat 16 300 (w0 true true) = Ok tt w1 /\
    @ehooks_get_extent_hooks_ptr nat 16 w1 = Ok 300 w1 /\
    (forall other, other <> 16 ->
       ehooks_mem w1 !! other = ehooks_mem (w0 true true) !! other) /\
    @ehooks_set_extent_hooks_ptr nat 16 100 w1
    = @ehooks_set_extent_hooks_ptr nat 16 100 (w0 true true) /\
    (300 = 200 -> w1 = w0 true true).
Proof.
  apply (install_round_trip 16 300 100 (w0 true true) {| ptr := 200 |}).
  reflexivity.
Defined.

(** The handle at 16 holds a table without [dalloc]; once the default
    table is installed, [dalloc] through it is served by the fast path. *)
Lemma install_takes_effect_witness :
  exists w1,
    @ehooks_set_extent_hooks_ptr nat 16 100 (w0 true true) = Ok tt w1 /\
    @dispatch nat (demo_extern true true) None 16 (ReqDalloc 4096 4096 true 0) w1
    = Ok (RepBool false) (called (EvDefault Dalloc) 1%nat w1).
Proof.
  destruct (@install_takes_effect nat (demo_extern true true) None 16 100
              (ReqDalloc 4096 4096 true 0) (w0 true true) {| ptr := 200 |}
              eq_refl) as (w1 & Hs & Hd & _).
  exists w1. split; [exact Hs | exact (Hd eq_refl eq_refl)].
Defined.

(** Installing the default table on the handle at 16 changes nothing for
    commit through the handle at 24. *)
Lemma handles_are_independent_witness :
  exists rep w' v',
    @dispatch nat (demo_extern true true) None 24 (ReqCommit 4096 4096 0 4096 0)
      (w0 true true) = Ok rep w' /\
    @dispatch nat (demo_extern true true) None 24 (ReqCommit 4096 4096 0 4096 0)
      (final (@ehooks_set_extent_hooks_ptr nat 16 100 (w0 true true)))
    = Ok rep v' /\
    ext v' = ext w' /\ trace v' = trace w' /\
    (forall t, level_of v' t = level_of w' t).
Proof.
  apply (@handles_are_independent nat (demo_extern true true) commit_through_24
           16 100 (w0 true true)).
  - vm_compute. reflexivity.
  - cbn. lia.
Defined.

(** Commit through the handle at 24 is one of the three cases. *)
Lemma one_backend_call_at_most_witness :
  exists h rep w',
    ehooks_mem (w0 true true) !! 24 = Some h /\
    @dispatch nat (demo_extern true true) None 24 (ReqCommit 4096 4096 0 4096 0)
      (w0 true true) = Ok rep w' /\
    ((true && (ptr h =? 100) = true /\
      rep = fst (@fast_path nat (demo_extern true true) None
                   (ReqCommit 4096 4096 0 4096 0) (ext (w0 true true))) /\
      w' = called (EvDefault Commit)
             (snd (@fast_path nat (demo_extern true true) None
                     (ReqCommit 4096 4096 0 4096 0) (ext (w0 true true))))
             (w0 true true)) \/
     (true && (ptr h =? 100) = false /\
      exists T, hooks_mem (w0 true true) !! ptr h = Some T /\
        (slot_call (ptr h) T (ReqCommit 4096 4096 0 4096 0) = None /\
         rep = fallback Commit /\ w' = w0 true true \/
         exists g, slot_call (ptr h) T (ReqCommit 4096 4096 0 4096 0) = Some g /\
           rep = fst (g (ext (w0 true true))) /\
           guarded_call (w0 true true) None Commit (ptr h)
             (snd (g (ext (w0 true true)))) w'))).
Proof.
  apply (@one_backend_call_at_most nat (demo_extern true true) (w0 true true)
           commit_through_24).
  vm_compute. reflexivity.
Defined.

(** Thread 2 has no context yet: the guard with a null [tsdn] establishes
    one, raises its counter to 1 and brings it back to 0. *)
Lemma guard_enter_exit_witness :
  exists w1 w2,
    @ehooks_pre_reentrancy nat None (with_cur_thread 2 (w0 true true)) = Ok tt w1 /\
    @ehooks_post_reentrancy nat None w1 = Ok tt w2 /\
    level_of w1 2%nat = level_of (with_cur_thread 2 (w0 true true)) 2%nat + 1 /\
    (forall t, t <> 2%nat ->
       level_of w1 t = level_of (with_cur_thread 2 (w0 true true)) t) /\
    (forall t, level_of w2 t = level_of (with_cur_thread 2 (w0 true true)) t) /\
    trace w2 = trace (with_cur_thread 2 (w0 true true)) ++ [EvPre 2; EvPost 2] /\
    ext w2 = ext (with_cur_thread 2 (w0 true true)) /\
    ehooks_mem w2 = ehooks_mem (with_cur_thread 2 (w0 true true)) /\
    hooks_mem w2 = hooks_mem (with_cur_thread 2 (w0 true true)).
Proof.
  apply (guard_enter_exit None (with_cur_thread 2 (w0 true true))).
  reflexivity.
Defined.

(** On the handle at 8 (default table) [dalloc] gives the same outcome
    whatever [tsdn], [committed] and [arena_ind] are, and [split] whatever
    any of its arguments is. *)
Lemma default_path_ignores_arguments_witness :
  @ehooks_dalloc nat (demo_extern true true) None 8 4096 4096 true 0 (w0 true true)
  = @ehooks_dalloc nat (demo_extern true true) (Some 1%nat) 8 4096 4096 false 7
      (w0 true true) /\
  @ehooks_split nat (demo_extern true true) None 8 4096 8192 4096 4096 true 0
    (w0 true true)
  = @ehooks_split nat (demo_extern true true) (Some 1%nat) 8 0 0 0 0 false 7
      (w0 true true).
Proof.
  destruct (@default_path_ignores_arguments nat (demo_extern true true) 8
              (w0 true true) {| ptr := 100 |} None (Some 1%nat)
              4096 0 4096 0 0 0 0 7 true false 4096 0 4096 0 0 eq_refl eq_refl)
    as (Hd & _).
  split; [exact Hd|].
  destruct (@default_path_ignores_arguments nat (demo_extern true true) 8
              (w0 true true) {| ptr := 100 |} None (Some 1%nat)
              4096 0 8192 0 0 0 0 7 true false 4096 0 4096 0 0 eq_refl eq_refl)
    as (_ & _ & _ & _ & _ & _ & Hs & _).
  exact Hs.
Defined.

(** On the handle at 24 the split hook is present and refuses: the
    predicate is [false] and the wrapper returns [true]. *)
Lemma split_merge_fail_iff_witness :
  exists b w',
    @ehooks_split nat (demo_extern true true) None 24 4096 8192 4096 4096 true 0
      (w0 true true) = Ok b w' /\
    (b = true <->
     @ehooks_split_will_fail nat 24 (w0 true true) = Ok true (w0 true true) \/
     exists f, split no_alloc = Some f /\
       fst (f 300 4096 8192 4096 4096 true 0 (ext (w0 true true))) = true).
Proof.
  refine (proj1 (@split_merge_fail_iff nat (demo_extern true true) None 24
                   4096 8192 4096 4096 4096 true 0 (w0 true true)
                   {| ptr := 300 |} no_alloc _ _ _ _)).
  - reflexivity.
  - cbn. lia.
  - reflexivity.
  - reflexivity.
Defined.

End Examples.
